(** * survey: the prompt loop of [Ask] and [AskOne]

    A shallow embedding of [survey.go].  [Ask] is sequential code whose
    only interesting behaviour is the order and the arguments of the calls
    it makes to things it does not own: the three methods of a [Prompt],
    the [Validate] and [Convert] closures of a [Question], and
    [core.WriteAnswer].  All of them may have side effects (a terminal, the
    variables a closure captures, the pointee of the answer container), so
    each is a state-passing function over a world [W], and a run of [Ask]
    threads that world through the calls and records every call, with what
    it returned, in a trace.

    The two [for] loops of [Ask] have no bound.  They are embedded as
    fixpoints over a fuel counter that bounds the number of times a loop
    condition is evaluated; a run that exhausts it yields [OutOfFuel]
    together with the world and the trace reached so far.

    The embedding covers well-formed inputs: question pointers and
    [Prompt] interface values are not nil (Go panics on a nil one at its
    first use), and every external call returns. *)

From Stdlib Require Import List String Bool Arith Lia.
Import ListNotations.
Local Open Scope string_scope.
Local Open Scope list_scope.

Set Implicit Arguments.

(** ** Outcome of a fuel-bounded run *)

Inductive outcome (A : Type) : Type :=
| Returned (a : A)
| OutOfFuel.

Arguments Returned {A} a.
Arguments OutOfFuel {A}.

Section Survey.

(** [W] is the state of everything outside [Ask]; [value] stands for Go's
    [interface{}] answers, [error] for non-nil [error] values (a Go
    [error] is an [option error], nil being [None]), [container] for
    non-nil answer destinations (the parameter [t] of [Ask] is an
    [option container]). *)
Variables W value error container : Type.

(** [errors.New] *)
Variable errors_New : string -> error.

(** [core.WriteAnswer], the Answer Binder: it lives in package [core]
    and is taken as a parameter. *)
Variable WriteAnswer :
  container -> string -> value -> W -> option error * W.

(** [type Validator func(interface{}) error] *)
Definition Validator : Type := value -> W -> option error * W.

(** [type Converter func(interface{}) (interface{}, error)] *)
Definition Converter : Type := value -> W -> (value * option error) * W.

(** [type Prompt interface] with its three methods. *)
Record Prompt : Type := {
  Prompt_Prompt : W -> (value * option error) * W;
  Prompt_Cleanup : value -> W -> option error * W;
  Prompt_Error : error -> W -> option error * W
}.

(** [type Question struct]; a nil [Validate] or [Convert] is [None].  The
    field [Prompt] is [QPrompt] here, [Prompt] being the interface type. *)
Record Question : Type := {
  Name : string;
  QPrompt : Prompt;
  Validate : option Validator;
  Convert : option Converter
}.

(** One external call, with its arguments and what it returned. *)
Inductive event : Type :=
| EvPrompt (p : Prompt) (ans : value) (err : option error)
| EvError (p : Prompt) (invalid : error) (err : option error)
| EvCleanup (p : Prompt) (ans : value) (err : option error)
| EvConvert (c : Converter) (ans : value) (converted : value)
            (invalid : option error)
| EvValidate (v : Validator) (converted : value) (invalid : option error)
| EvWrite (t : container) (name : string) (converted : value)
          (err : option error).

Definition trace : Type := list event.

(** ** The run monad: world, trace and fuel exhaustion *)

Definition M (A : Type) : Type := W -> outcome A * W * trace.

Definition ret {A} (a : A) : M A := fun w => (Returned a, w, []).

Definition bind {A B} (m : M A) (k : A -> M B) : M B :=
  fun w =>
    match m w with
    | (Returned a, w1, tr1) =>
        match k a w1 with
        | (o, w2, tr2) => (o, w2, tr1 ++ tr2)
        end
    | (OutOfFuel, w1, tr1) => (OutOfFuel, w1, tr1)
    end.

Definition timeout {A} : M A := fun w => (OutOfFuel, w, []).

(** An external call: run it on the world and record it. *)
Definition call {A} (f : W -> A * W) (record : A -> event) : M A :=
  fun w => match f w with (a, w1) => (Returned a, w1, [record a]) end.

Notation "x <- m ;; k" := (bind m (fun x => k))
  (at level 61, m at next level, right associativity).
Notation "' pat <- m ;; k" := (bind m (fun x => match x with pat => k end))
  (at level 61, pat pattern, m at next level, right associativity).

Definition callPrompt (p : Prompt) : M (value * option error) :=
  call (Prompt_Prompt p) (fun r => EvPrompt p (fst r) (snd r)).

Definition callError (p : Prompt) (invalid : error) : M (option error) :=
  call (Prompt_Error p invalid) (EvError p invalid).

Definition callCleanup (p : Prompt) (ans : value) : M (option error) :=
  call (Prompt_Cleanup p ans) (EvCleanup p ans).

Definition callConvert (c : Converter) (ans : value)
  : M (value * option error) :=
  call (c ans) (fun r => EvConvert c ans (fst r) (snd r)).

Definition callValidate (v : Validator) (converted : value)
  : M (option error) :=
  call (v converted) (EvValidate v converted).

Definition callWriteAnswer (t : container) (name : string)
           (converted : value) : M (option error) :=
  call (WriteAnswer t name converted) (EvWrite t name converted).

(** ** [Ask] *)

(** Lines 65-78, the conversion loop
    [for convertedAns, invalid = q.Convert(ans); invalid != nil;
         convertedAns, invalid = q.Convert(ans) { ... }].
    [inl err] is a [return err] from inside the loop; [inr (ans,
    convertedAns)] is the normal exit with the variables' final values. *)
Fixpoint convertLoop (fuel : nat) (p : Prompt) (c : Converter)
         (ans : value) : M (error + value * value) :=
  match fuel with
  | O => timeout
  | S fuel' =>
      '(convertedAns, invalid) <- callConvert c ans ;;
      match invalid with
      | None => ret (inr (ans, convertedAns))
      | Some invalid =>
          err <- callError p invalid ;;
          match err with
          | Some err => ret (inl err)
          | None =>
              '(ans, err) <- callPrompt p ;;
              match err with
              | Some err => ret (inl err)
              | None => convertLoop fuel' p c ans
              end
          end
      end
  end.

(** Lines 84-97, the validation loop
    [for invalid := q.Validate(convertedAns); invalid != nil;
         invalid = q.Validate(convertedAns) { ... }].
    The body assigns [ans] and never [convertedAns]. *)
Fixpoint validateLoop (fuel : nat) (p : Prompt) (v : Validator)
         (ans convertedAns : value) : M (error + value) :=
  match fuel with
  | O => timeout
  | S fuel' =>
      invalid <- callValidate v convertedAns ;;
      match invalid with
      | None => ret (inr ans)
      | Some invalid =>
          err <- callError p invalid ;;
          match err with
          | Some err => ret (inl err)
          | None =>
              '(ans, err) <- callPrompt p ;;
              match err with
              | Some err => ret (inl err)
              | None => validateLoop fuel' p v ans convertedAns
              end
          end
      end
  end.

(** Lines 52-115, the body of [for _, q := range qs].  [Some err] is a
    [return err]; [None] lets the range loop go on.  The [err] declared
    on line 53 is the one tested on line 104: the [err] of the two retry
    loops are new variables of the loop bodies ([err := ...]). *)
Definition askQuestion (fuel : nat) (q : Question) (t : container)
  : M (option error) :=
  '(ans, err) <- callPrompt (QPrompt q) ;;
  let convertedAns := ans in
  match err with
  | Some _ => ret err
  | None =>
      r <- match Convert q with
           | Some c => convertLoop fuel (QPrompt q) c ans
           | None => ret (inr (ans, convertedAns))
           end ;;
      match r with
      | inl e => ret (Some e)
      | inr (ans, convertedAns) =>
          r <- match Validate q with
               | Some v => validateLoop fuel (QPrompt q) v ans convertedAns
               | None => ret (inr ans)
               end ;;
          match r with
          | inl e => ret (Some e)
          | inr ans =>
              _ <- callCleanup (QPrompt q) ans ;;
              match err with
              | Some _ => ret err
              | None =>
                  err <- callWriteAnswer t (Name q) convertedAns ;;
                  match err with
                  | Some _ => ret err
                  | None => ret None
                  end
              end
          end
      end
  end.

(** Lines 51-118, the range loop and the final [return nil]. *)
Fixpoint askLoop (fuel : nat) (qs : list Question) (t : container)
  : M (option error) :=
  match qs with
  | [] => ret None
  | q :: qs' =>
      r <- askQuestion fuel q t ;;
      match r with
      | Some err => ret (Some err)
      | None => askLoop fuel qs' t
      end
  end.

(** [func Ask(qs []*Question, t interface{}) error] *)
Definition Ask (fuel : nat) (qs : list Question) (t : option container)
  : M (option error) :=
  match t with
  | None =>
      ret (Some (errors_New
        "cannot call Ask() with a nil reference to record the answers"))
  | Some t => askLoop fuel qs t
  end.

(** [func AskOne(p Prompt, t interface{}, v Validator, c Converter) error];
    the composite literal leaves [Name] at its zero value. *)
Definition AskOne (fuel : nat) (p : Prompt) (t : option container)
           (v : option Validator) (c : option Converter)
  : M (option error) :=
  err <- Ask fuel
           [{| Name := ""; QPrompt := p; Validate := v; Convert := c |}] t ;;
  match err with
  | Some _ => ret err
  | None => ret None
  end.

End Survey.

Arguments ret {W value error container A} a _.
Arguments bind {W value error container A B} m k _.
Arguments timeout {W value error container A} _.
Arguments Name {W value error} q.
Arguments QPrompt {W value error} q.
Arguments Validate {W value error} q.
Arguments Convert {W value error} q.
Arguments convertLoop {W value error container} fuel p c ans _.
Arguments validateLoop {W value error container} fuel p v ans convertedAns _.
Arguments EvPrompt {W value error container} p ans err.
Arguments EvError {W value error container} p invalid err.
Arguments EvCleanup {W value error container} p ans err.
Arguments EvConvert {W value error container} c ans converted invalid.
Arguments EvValidate {W value error container} v converted invalid.
Arguments EvWrite {W value error container} t name converted err.

(** ** Reading a run and its trace *)

Section Observations.

Variables W value error container : Type.

#[local] Abbreviation event := (event W value error container).
#[local] Abbreviation trace := (trace W value error container).

Definition result {A} (r : outcome A * W * trace) : outcome A := fst (fst r).
Definition world {A} (r : outcome A * W * trace) : W := snd (fst r).
Definition calls {A} (r : outcome A * W * trace) : trace := snd r.

(** The error a recorded call returned. *)
Definition returnedError (ev : event) : option error :=
  match ev with
  | EvPrompt _ _ err => err
  | EvError _ _ err => err
  | EvCleanup _ _ err => err
  | EvConvert _ _ _ invalid => invalid
  | EvValidate _ _ invalid => invalid
  | EvWrite _ _ _ err => err
  end.

Definition succeeded (ev : event) : bool :=
  match returnedError ev with None => true | Some _ => false end.

Definition isPrompt (ev : event) : bool :=
  match ev with EvPrompt _ _ _ => true | _ => false end.
Definition isError (ev : event) : bool :=
  match ev with EvError _ _ _ => true | _ => false end.
Definition isCleanup (ev : event) : bool :=
  match ev with EvCleanup _ _ _ => true | _ => false end.
Definition isConvert (ev : event) : bool :=
  match ev with EvConvert _ _ _ _ => true | _ => false end.
Definition isValidate (ev : event) : bool :=
  match ev with EvValidate _ _ _ => true | _ => false end.
Definition isWrite (ev : event) : bool :=
  match ev with EvWrite _ _ _ _ => true | _ => false end.

(** Number of calls of one kind in a trace. *)
Definition count (kind : event -> bool) (tr : trace) : nat :=
  List.length (filter kind tr).

(** What the calls of one kind returned, in order. *)
Definition outcomes (kind : event -> bool) (tr : trace)
  : list (option error) :=
  map returnedError (filter kind tr).

(** Every call of that kind in the trace returned nil. *)
Definition allOk (kind : event -> bool) (tr : trace) : bool :=
  forallb (fun ev => implb (kind ev) (succeeded ev)) tr.

(** The error of a failed [prompt()], [error()] or bind call: the three
    calls whose error [Ask] tests. *)
Definition fatal (ev : event) : option error :=
  match ev with
  | EvPrompt _ _ err => err
  | EvError _ _ err => err
  | EvWrite _ _ _ err => err
  | _ => None
  end.

(** A trace none of whose calls is a failed [prompt()], [error()] or
    bind. *)
Definition clean (tr : trace) : Prop :=
  forall ev, In ev tr -> fatal ev = None.

(** A trace whose last call is a [prompt()], [error()] or bind that failed
    with [err], and is the only one that failed. *)
Definition abortedBy (tr : trace) (err : error) : Prop :=
  exists tr0 ev, tr = tr0 ++ [ev] /\ clean tr0 /\ fatal ev = Some err.

(** What a trace must look like for a run that ended with [o]: [abort]
    reads the error, if any, with which the code returned. *)
Definition endsAs {A} (abort : A -> option error) (tr : trace)
           (o : outcome A) : Prop :=
  match o with
  | Returned a =>
      match abort a with
      | Some err => abortedBy tr err
      | None => clean tr
      end
  | OutOfFuel => clean tr
  end.

Definition leftError {A} (r : error + A) : option error :=
  match r with inl err => Some err | inr _ => None end.

(** The raw value of the last [prompt()] call of a trace. *)
Fixpoint lastRaw (tr : trace) : option value :=
  match tr with
  | [] => None
  | ev :: tr' =>
      match lastRaw tr' with
      | Some a => Some a
      | None => match ev with EvPrompt _ a _ => Some a | _ => None end
      end
  end.

(** The answers bound into the container: the successful calls of the
    Answer Binder, in order. *)
Fixpoint bound (tr : trace) : list (string * value) :=
  match tr with
  | [] => []
  | EvWrite _ name v None :: tr' => (name, v) :: bound tr'
  | _ :: tr' => bound tr'
  end.

(** The values handed to [validate] and to the Answer Binder. *)
Fixpoint checkedValues (tr : trace) : list value :=
  match tr with
  | [] => []
  | EvValidate _ v _ :: tr' => v :: checkedValues tr'
  | EvWrite _ _ v _ :: tr' => v :: checkedValues tr'
  | _ :: tr' => checkedValues tr'
  end.

(** The names handed to the Answer Binder. *)
Fixpoint writtenNames (tr : trace) : list string :=
  match tr with
  | [] => []
  | EvWrite _ name _ _ :: tr' => name :: writtenNames tr'
  | _ :: tr' => writtenNames tr'
  end.

(** What follows, in a trace, a validation of [x] that failed with
    [invalid]: the failure is reported; if the report succeeds, [prompt()]
    is called; if that succeeds too, the next call validates [x] again,
    unless the run is out of fuel ([starved]) and stops there. *)
Definition revalidated (p : Prompt W value error)
           (v : Validator W value error) (x : value) (invalid : error)
           (rest : trace) (starved : Prop) : Prop :=
  exists err rest1,
    rest = EvError p invalid err :: rest1
    /\ (err = None ->
        exists ans err' rest2,
          rest1 = EvPrompt p ans err' :: rest2
          /\ (err' = None ->
              (rest2 = [] /\ starved)
              \/ exists invalid' rest3,
                  rest2 = EvValidate v x invalid' :: rest3)).

(** The errors handed to [error()], in order. *)
Fixpoint reported (tr : trace) : list error :=
  match tr with
  | [] => []
  | EvError _ invalid _ :: tr' => invalid :: reported tr'
  | _ :: tr' => reported tr'
  end.

(** The errors with which [convert] and [validate] turned an answer down,
    in order. *)
Fixpoint refused (tr : trace) : list error :=
  match tr with
  | [] => []
  | EvConvert _ _ _ (Some invalid) :: tr' => invalid :: refused tr'
  | EvValidate _ _ (Some invalid) :: tr' => invalid :: refused tr'
  | _ :: tr' => refused tr'
  end.

(** The calls of one question when nothing fails: [ans] is the raw value,
    [cv] the working converted answer. *)
Definition happyCalls (t : container)
           (q : Question W value error) (ans cv : value) : trace :=
  [EvPrompt (QPrompt q) ans None]
    ++ match Convert q with
       | Some c => [EvConvert c ans cv None]
       | None => []
       end
    ++ match Validate q with
       | Some v => [EvValidate v cv None]
       | None => []
       end
    ++ [EvCleanup (QPrompt q) ans None; EvWrite t (Name q) cv None].

Fixpoint happyTrace (t : container) (qs : list (Question W value error))
         (answers : list (value * value)) : trace :=
  match qs, answers with
  | q :: qs', (ans, cv) :: answers' =>
      happyCalls t q ans cv ++ happyTrace t qs' answers'
  | _, _ => []
  end.



End Observations.

Arguments leftError {error A} r.
Arguments returnedError {W value error container} ev.
Arguments succeeded {W value error container} ev.
Arguments isPrompt {W value error container} ev.
Arguments isError {W value error container} ev.
Arguments isCleanup {W value error container} ev.
Arguments isConvert {W value error container} ev.
Arguments isValidate {W value error container} ev.
Arguments isWrite {W value error container} ev.
Arguments fatal {W value error container} ev.

(** ** The calls a run can make

    The traces of the two retry loops and of one question, read off the
    code of [convertLoop], [validateLoop] and [askQuestion] with the world
    left out: one constructor per way out of the code. *)

Section Runs.

Variables W value error container : Type.

#[local] Abbreviation event := (event W value error container).
#[local] Abbreviation trace := (trace W value error container).
#[local] Abbreviation Prompt := (Prompt W value error).
#[local] Abbreviation Question := (Question W value error).

Inductive convertRun (p : Prompt) (c : Converter W value error)
  : nat -> value -> trace -> outcome (error + value * value) -> Prop :=
| ConvertOutOfFuel ans :
    convertRun p c 0 ans [] OutOfFuel
| ConvertAccepted fuel ans cv :
    convertRun p c (S fuel) ans
               [EvConvert c ans cv None] (Returned (inr (ans, cv)))
| ConvertErrorFailed fuel ans cv invalid err :
    convertRun p c (S fuel) ans
               [EvConvert c ans cv (Some invalid);
                EvError p invalid (Some err)]
               (Returned (inl err))
| ConvertPromptFailed fuel ans cv invalid ans' err :
    convertRun p c (S fuel) ans
               [EvConvert c ans cv (Some invalid);
                EvError p invalid None;
                EvPrompt p ans' (Some err)]
               (Returned (inl err))
| ConvertRetry fuel ans cv invalid ans' tr o :
    convertRun p c fuel ans' tr o ->
    convertRun p c (S fuel) ans
               (EvConvert c ans cv (Some invalid)
                  :: EvError p invalid None
                  :: EvPrompt p ans' None :: tr)
               o.

Inductive validateRun (p : Prompt) (v : Validator W value error)
          (cv : value)
  : nat -> value -> trace -> outcome (error + value) -> Prop :=
| ValidateOutOfFuel ans :
    validateRun p v cv 0 ans [] OutOfFuel
| ValidateAccepted fuel ans :
    validateRun p v cv (S fuel) ans
                [EvValidate v cv None] (Returned (inr ans))
| ValidateErrorFailed fuel ans invalid err :
    validateRun p v cv (S fuel) ans
                [EvValidate v cv (Some invalid);
                 EvError p invalid (Some err)]
                (Returned (inl err))
| ValidatePromptFailed fuel ans invalid ans' err :
    validateRun p v cv (S fuel) ans
                [EvValidate v cv (Some invalid);
                 EvError p invalid None;
                 EvPrompt p ans' (Some err)]
                (Returned (inl err))
| ValidateRetry fuel ans invalid ans' tr o :
    validateRun p v cv fuel ans' tr o ->
    validateRun p v cv (S fuel) ans
                (EvValidate v cv (Some invalid)
                   :: EvError p invalid None
                   :: EvPrompt p ans' None :: tr)
                o.

(** Lines 61-79: the conversion loop if there is a converter. *)
Definition convertPhase (fuel : nat) (q : Question) (ans : value)
           (tr : trace) (o : outcome (error + value * value)) : Prop :=
  match Convert q with
  | Some c => convertRun (QPrompt q) c fuel ans tr o
  | None => tr = [] /\ o = Returned (inr (ans, ans))
  end.

(** Lines 82-98: the validation loop if there is a validator. *)
Definition validatePhase (fuel : nat) (q : Question) (ans cv : value)
           (tr : trace) (o : outcome (error + value)) : Prop :=
  match Validate q with
  | Some v => validateRun (QPrompt q) v cv fuel ans tr o
  | None => tr = [] /\ o = Returned (inr ans)
  end.

(** A retry loop that did not accept a value ends the question: with the
    error it returned, or out of fuel. *)
Definition stops {A} (o1 : outcome (error + A))
           (o : outcome (option error)) : Prop :=
  match o1 with
  | OutOfFuel => o = OutOfFuel
  | Returned (inl err) => o = Returned (Some err)
  | Returned (inr _) => False
  end.

Inductive questionRun (fuel : nat) (q : Question) (t : container)
  : trace -> outcome (option error) -> Prop :=
| QuestionPromptFailed ans err :
    questionRun fuel q t
                [EvPrompt (QPrompt q) ans (Some err)] (Returned (Some err))
| QuestionConvertStopped ans tr1 o1 o :
    convertPhase fuel q ans tr1 o1 ->
    stops o1 o ->
    questionRun fuel q t (EvPrompt (QPrompt q) ans None :: tr1) o
| QuestionValidateStopped ans tr1 ans1 cv tr2 o2 o :
    convertPhase fuel q ans tr1 (Returned (inr (ans1, cv))) ->
    validatePhase fuel q ans1 cv tr2 o2 ->
    stops o2 o ->
    questionRun fuel q t (EvPrompt (QPrompt q) ans None :: tr1 ++ tr2) o
| QuestionWritten ans tr1 ans1 cv tr2 ans2 cerr err :
    convertPhase fuel q ans tr1 (Returned (inr (ans1, cv))) ->
    validatePhase fuel q ans1 cv tr2 (Returned (inr ans2)) ->
    questionRun fuel q t
                (EvPrompt (QPrompt q) ans None
                   :: tr1 ++ tr2
                   ++ [EvCleanup (QPrompt q) ans2 cerr;
                       EvWrite t (Name q) cv err])
                (Returned err).

(** Lines 51-118: the questions in order, until one does not return nil. *)
Inductive sequenceRun (fuel : nat) (t : container)
  : list Question -> trace -> outcome (option error) -> Prop :=
| SequenceDone :
    sequenceRun fuel t [] [] (Returned None)
| SequenceStopped q qs tr o :
    questionRun fuel q t tr o ->
    o <> Returned None ->
    sequenceRun fuel t (q :: qs) tr o
| SequenceNext q qs tr1 tr2 o :
    questionRun fuel q t tr1 (Returned None) ->
    sequenceRun fuel t qs tr2 o ->
    sequenceRun fuel t (q :: qs) (tr1 ++ tr2) o.

End Runs.

(** ** A scripted terminal

    Concrete prompts, converters and validators over a world that holds
    the lines still to be typed, the number of answers a validator has
    turned down, and the answers bound so far. *)

Module Scripted.

Record world : Type := {
  stdin : list nat;
  rejections : nat;
  answers : list (string * nat)
}.

Definition typed (w : world) (rest : list nat) : world :=
  {| stdin := rest; rejections := rejections w; answers := answers w |}.

(** Reads the next line; fails at the end of the input. *)
Definition readLine (w : world) : (nat * option string) * world :=
  match stdin w with
  | [] => ((0, Some "EOF"), w)
  | x :: rest => ((x, None), typed w rest)
  end.

Definition terminal : Prompt world nat string :=
  {| Prompt_Prompt := readLine;
     Prompt_Cleanup := fun _ w => (None, w);
     Prompt_Error := fun _ w => (None, w) |}.


(** Never fails: reads the next line, or 0 once the input is used up. *)
Definition patient : Prompt world nat string :=
  {| Prompt_Prompt := fun w => ((hd 0 (stdin w), None), typed w (tl (stdin w)));
     Prompt_Cleanup := fun _ w => (None, w);
     Prompt_Error := fun _ w => (None, w) |}.

(** Halves an even number and refuses an odd one. *)
Definition halve : Converter world nat string :=
  fun x w =>
    (if Nat.even x then (Nat.div2 x, None) else (0, Some "odd"), w).

(** A pure validator. *)
Definition atLeastTen : Validator world nat string :=
  fun x w => (if (10 <=? x)%nat then None else Some "too small", w).

(** Turns down whatever it is given the first time it is called. *)
Definition grumpy : Validator world nat string :=
  fun _ w =>
    match rejections w with
    | O => (Some "try again",
            {| stdin := stdin w; rejections := 1; answers := answers w |})
    | S _ => (None, w)
    end.

(** A binder into a name-keyed list. *)
Definition record (_ : unit) (name : string) (x : nat) (w : world)
  : option string * world :=
  (None, {| stdin := stdin w; rejections := rejections w;
            answers := answers w ++ [(name, x)] |}).

Definition keyboard (lines : list nat) : world :=
  {| stdin := lines; rejections := 0; answers := [] |}.

Definition question (name : string) (p : Prompt world nat string)
           (v : option (Validator world nat string))
           (c : option (Converter world nat string))
  : Question world nat string :=
  {| Name := name; QPrompt := p; Validate := v; Convert := c |}.

Definition ask := Ask (fun s => s) record.
Definition askOne := AskOne (fun s => s) record.

End Scripted.

(** * Proofs *)

(** Unfolds the monad down to the external calls. *)
Ltac run_call :=
  unfold callPrompt, callError, callCleanup, callConvert, callValidate,
    callWriteAnswer, call, bind, ret, timeout in *; cbn beta iota in *.

Section Soundness.

Variables W value error container : Type.
Variable errors_New : string -> error.
Variable WriteAnswer :
  container -> string -> value -> W -> option error * W.

#[local] Abbreviation Prompt := (Prompt W value error).
#[local] Abbreviation Question := (Question W value error).
#[local] Abbreviation trace := (trace W value error container).

(** The calls of [convertLoop] are a [convertRun]. *)
Lemma convertLoop_run (p : Prompt) c fuel :
  forall ans w o w' (tr : trace),
    convertLoop fuel p c ans w = (o, w', tr) ->
    convertRun p c fuel ans tr o.
Proof.
  induction fuel as [|fuel IH]; intros ans w o w' tr; simpl.
  - intros [= <- _ <-]. constructor.
  - run_call.
    destruct (c ans w) as [[cv [invalid|]] w1]; simpl;
      [|intros [= <- _ <-]; constructor].
    destruct (Prompt_Error p invalid w1) as [[err|] w2]; simpl;
      [intros [= <- _ <-]; constructor|].
    destruct (Prompt_Prompt p w2) as [[ans' [err|]] w3]; simpl;
      [intros [= <- _ <-]; constructor|].
    destruct (convertLoop fuel p c ans' w3) as [[o1 w4] tr1] eqn:E.
    intros [= <- _ <-]. constructor. eapply IH, E.
Qed.

(** The calls of [validateLoop] are a [validateRun]. *)
Lemma validateLoop_run (p : Prompt) v cv fuel :
  forall ans w o w' (tr : trace),
    validateLoop fuel p v ans cv w = (o, w', tr) ->
    validateRun p v cv fuel ans tr o.
Proof.
  induction fuel as [|fuel IH]; intros ans w o w' tr; simpl.
  - intros [= <- _ <-]. constructor.
  - run_call.
    destruct (v cv w) as [[invalid|] w1]; simpl;
      [|intros [= <- _ <-]; constructor].
    destruct (Prompt_Error p invalid w1) as [[err|] w2]; simpl;
      [intros [= <- _ <-]; constructor|].
    destruct (Prompt_Prompt p w2) as [[ans' [err|]] w3]; simpl;
      [intros [= <- _ <-]; constructor|].
    destruct (validateLoop fuel p v ans' cv w3) as [[o1 w4] tr1] eqn:E.
    intros [= <- _ <-]. constructor. eapply IH, E.
Qed.

(** The calls of [askQuestion] are a [questionRun]. *)
Lemma askQuestion_run fuel (q : Question) t w o w' tr :
  askQuestion WriteAnswer fuel q t w = (o, w', tr) ->
  questionRun fuel q t tr o.
Proof.
  unfold askQuestion. run_call.
  destruct (Prompt_Prompt (QPrompt q) w) as [[ans [err|]] w1]; simpl;
    [intros [= <- _ <-]; constructor|].
  assert (Hc : exists o1 w2 (tr1 : trace),
             match Convert q with
             | Some c => convertLoop fuel (QPrompt q) c ans
             | None => fun w => (Returned (inr (ans, ans)), w, [])
             end w1 = (o1, w2, tr1)
             /\ convertPhase fuel q ans tr1 o1).
  { unfold convertPhase. destruct (Convert q) as [c|].
    - destruct (convertLoop fuel (QPrompt q) c ans w1)
        as [[o1 w2] tr1] eqn:E.
      exists o1, w2, tr1. split; [reflexivity|].
      eapply convertLoop_run, E.
    - now exists (Returned (inr (ans, ans))), w1, []. }
  destruct Hc as (o1 & w2 & tr1 & -> & Hc).
  destruct o1 as [[e|[ans1 cv]]|]; simpl.
  - rewrite app_nil_r. intros [= <- _ <-].
    now apply QuestionConvertStopped with (o1 := Returned (inl e)).
  - assert (Hv : exists o2 w3 (tr2 : trace),
               match Validate q with
               | Some v => validateLoop fuel (QPrompt q) v ans1 cv
               | None => fun w => (Returned (inr ans1), w, [])
               end w2 = (o2, w3, tr2)
               /\ validatePhase fuel q ans1 cv tr2 o2).
    { unfold validatePhase. destruct (Validate q) as [v|].
      - destruct (validateLoop fuel (QPrompt q) v ans1 cv w2)
          as [[o2 w3] tr2] eqn:E.
        exists o2, w3, tr2. split; [reflexivity|].
        eapply validateLoop_run, E.
      - now exists (Returned (inr ans1)), w2, []. }
    destruct Hv as (o2 & w3 & tr2 & -> & Hv).
    destruct o2 as [[e|ans2]|]; simpl.
    + rewrite app_nil_r. intros [= <- _ <-].
      now apply QuestionValidateStopped
        with (ans1 := ans1) (cv := cv) (o2 := Returned (inl e)).
    + destruct (Prompt_Cleanup (QPrompt q) ans2 w3) as [cerr w4]; simpl.
      destruct (WriteAnswer t (Name q) cv w4) as [[err|] w5]; simpl;
        intros [= <- _ <-];
        now apply QuestionWritten with (ans1 := ans1) (ans2 := ans2).
    + intros [= <- _ <-].
      now apply QuestionValidateStopped
        with (ans1 := ans1) (cv := cv) (o2 := OutOfFuel).
  - intros [= <- _ <-].
    now apply QuestionConvertStopped with (o1 := OutOfFuel).
Qed.

End Soundness.

(** ** Reading a trace piece by piece *)

Section TraceLemmas.

Variables W value error container : Type.

#[local] Abbreviation event := (event W value error container).
#[local] Abbreviation trace := (trace W value error container).

Lemma count_app kind (tr1 tr2 : trace) :
  count kind (tr1 ++ tr2) = count kind tr1 + count kind tr2.
Proof. unfold count. now rewrite filter_app, length_app. Qed.

Lemma outcomes_app kind (tr1 tr2 : trace) :
  outcomes kind (tr1 ++ tr2) = outcomes kind tr1 ++ outcomes kind tr2.
Proof. unfold outcomes. now rewrite filter_app, map_app. Qed.

Lemma allOk_app kind (tr1 tr2 : trace) :
  allOk kind (tr1 ++ tr2) = allOk kind tr1 && allOk kind tr2.
Proof. apply forallb_app. Qed.

Lemma bound_app (tr1 tr2 : trace) :
  bound (tr1 ++ tr2) = bound tr1 ++ bound tr2.
Proof.
  induction tr1 as [|ev tr1 IH]; simpl; [reflexivity|].
  destruct ev as [| | | | |? ? ? [?|]]; simpl; now rewrite ?IH.
Qed.

Lemma checkedValues_app (tr1 tr2 : trace) :
  checkedValues (tr1 ++ tr2) = checkedValues tr1 ++ checkedValues tr2.
Proof.
  induction tr1 as [|ev tr1 IH]; simpl; [reflexivity|].
  destruct ev; simpl; now rewrite ?IH.
Qed.

Lemma writtenNames_app (tr1 tr2 : trace) :
  writtenNames (tr1 ++ tr2) = writtenNames tr1 ++ writtenNames tr2.
Proof.
  induction tr1 as [|ev tr1 IH]; simpl; [reflexivity|].
  destruct ev; simpl; now rewrite ?IH.
Qed.

Lemma lastRaw_app (tr1 tr2 : trace) :
  lastRaw (tr1 ++ tr2) =
  match lastRaw tr2 with Some a => Some a | None => lastRaw tr1 end.
Proof.
  induction tr1 as [|ev tr1 IH]; simpl.
  - now destruct (lastRaw tr2).
  - rewrite IH. now destruct (lastRaw tr2).
Qed.

Lemma clean_nil : clean ([] : trace).
Proof. intros ev []. Qed.

Lemma clean_cons ev (tr : trace) :
  fatal ev = None -> clean tr -> clean (ev :: tr).
Proof. intros H Htr ev' [<-|Hin]; auto. Qed.

Lemma clean_app (tr1 tr2 : trace) :
  clean tr1 -> clean tr2 -> clean (tr1 ++ tr2).
Proof. intros H1 H2 ev Hin. apply in_app_or in Hin as [?|?]; auto. Qed.

(** In a trace that is clean up to its last call, a failed call can only
    be the last one. *)
Lemma clean_then_fatal (tr0 : trace) ev0 ev e :
  clean tr0 -> In ev (tr0 ++ [ev0]) -> fatal ev = Some e -> ev = ev0.
Proof.
  intros Hc Hin Hf. apply in_app_or in Hin as [Hin|[<-|[]]]; auto.
  apply Hc in Hin. congruence.
Qed.

Lemma abortedBy_app (tr1 tr2 : trace) e :
  clean tr1 -> abortedBy tr2 e -> abortedBy (tr1 ++ tr2) e.
Proof.
  intros H1 (tr0 & ev & -> & H0 & Hf).
  exists (tr1 ++ tr0), ev. rewrite app_assoc. auto using clean_app.
Qed.

Lemma endsAs_app {A} (abort : A -> option error) (tr1 tr2 : trace) o :
  clean tr1 -> endsAs abort tr2 o -> endsAs abort (tr1 ++ tr2) o.
Proof.
  unfold endsAs. intros H1 H2.
  destruct o as [a|]; [destruct (abort a)|];
    auto using clean_app, abortedBy_app.
Qed.

(** A failed [prompt()], [error()] or bind call is the last call of its
    run, and its error is what the run returned. *)
Lemma endsAs_fatal {A} (abort : A -> option error) (tr : trace) o ev e :
  endsAs abort tr o -> In ev tr -> fatal ev = Some e ->
  (exists a, o = Returned a /\ abort a = Some e)
  /\ exists tr0, tr = tr0 ++ [ev] /\ clean tr0.
Proof.
  unfold endsAs. intros H Hin Hf.
  assert (Hn : ~ clean tr) by (intros Hc; apply Hc in Hin; congruence).
  destruct o as [a|]; [|tauto].
  destruct (abort a) as [e0|] eqn:Ha; [|tauto].
  destruct H as (tr0 & ev0 & -> & Hc & Hf0).
  assert (ev = ev0) as -> by (eapply clean_then_fatal; eauto).
  split; [exists a; split; congruence|now exists tr0].
Qed.

End TraceLemmas.

(** ** What the runs of the loops and of a question look like *)

(** Closes [clean] goals on explicit traces. *)
Ltac clean_list :=
  let ev := fresh "ev" in
  let H := fresh "H" in
  intros ev H; simpl in H;
  repeat (destruct H as [<-|H]; [reflexivity|]); destruct H.

Section RunLemmas.

Variables W value error container : Type.

#[local] Abbreviation Prompt := (Prompt W value error).
#[local] Abbreviation Question := (Question W value error).
#[local] Abbreviation trace := (trace W value error container).

Lemma convertRun_endsAs (p : Prompt) c fuel ans (tr : trace) o :
  convertRun p c fuel ans tr o -> endsAs leftError tr o.
Proof.
  induction 1 as [| | fuel ans cv invalid err
                  | fuel ans cv invalid ans' err
                  | fuel ans cv invalid ans' tr o _ IH]; simpl.
  - apply clean_nil.
  - clean_list.
  - exists [EvConvert c ans cv (Some invalid)], (EvError p invalid (Some err)).
    repeat split. clean_list.
  - exists [EvConvert c ans cv (Some invalid); EvError p invalid None],
      (EvPrompt p ans' (Some err)).
    repeat split. clean_list.
  - change (endsAs leftError
                   ([EvConvert c ans cv (Some invalid);
                     EvError p invalid None; EvPrompt p ans' None] ++ tr) o).
    apply endsAs_app; [clean_list|exact IH].
Qed.

Lemma validateRun_endsAs (p : Prompt) v cv fuel ans (tr : trace) o :
  validateRun p v cv fuel ans tr o -> endsAs leftError tr o.
Proof.
  induction 1 as [| | fuel ans invalid err
                  | fuel ans invalid ans' err
                  | fuel ans invalid ans' tr o _ IH]; simpl.
  - apply clean_nil.
  - clean_list.
  - exists [EvValidate v cv (Some invalid)], (EvError p invalid (Some err)).
    repeat split. clean_list.
  - exists [EvValidate v cv (Some invalid); EvError p invalid None],
      (EvPrompt p ans' (Some err)).
    repeat split. clean_list.
  - change (endsAs leftError
                   ([EvValidate v cv (Some invalid);
                     EvError p invalid None; EvPrompt p ans' None] ++ tr) o).
    apply endsAs_app; [clean_list|exact IH].
Qed.

Lemma convertPhase_endsAs fuel (q : Question) ans (tr : trace) o :
  convertPhase fuel q ans tr o -> endsAs leftError tr o.
Proof.
  unfold convertPhase. destruct (Convert q).
  - apply convertRun_endsAs.
  - intros [-> ->]. apply clean_nil.
Qed.

Lemma validatePhase_endsAs fuel (q : Question) ans cv (tr : trace) o :
  validatePhase fuel q ans cv tr o -> endsAs leftError tr o.
Proof.
  unfold validatePhase. destruct (Validate q).
  - apply validateRun_endsAs.
  - intros [-> ->]. apply clean_nil.
Qed.

(** A loop that stopped the question hands its ending over to it. *)
Lemma stops_endsAs {A} (tr : trace) (o1 : outcome (error + A)) o :
  stops o1 o -> endsAs leftError tr o1 -> endsAs (fun r => r) tr o.
Proof.
  destruct o1 as [[e|a]|]; simpl; intros Hs; try contradiction;
    subst o; auto.
Qed.

Lemma questionRun_endsAs fuel (q : Question) t (tr : trace) o :
  questionRun fuel q t tr o -> endsAs (fun r => r) tr o.
Proof.
  destruct 1 as [ans err
                | ans tr1 o1 o Hc Hs
                | ans tr1 ans1 cv tr2 o2 o Hc Hv Hs
                | ans tr1 ans1 cv tr2 ans2 cerr err Hc Hv].
  - exists [], (EvPrompt (QPrompt q) ans (Some err)).
    repeat split. apply clean_nil.
  - change (endsAs (fun r => r)
                   ([EvPrompt (QPrompt q) ans None] ++ tr1) o).
    apply endsAs_app; [clean_list|].
    eapply stops_endsAs; eauto using convertPhase_endsAs.
  - apply convertPhase_endsAs in Hc. apply validatePhase_endsAs in Hv.
    simpl in Hc.
    change (endsAs (fun r => r)
                   ((EvPrompt (QPrompt q) ans None :: tr1) ++ tr2) o).
    apply endsAs_app.
    + apply clean_cons; auto.
    + eapply stops_endsAs; eauto.
  - apply convertPhase_endsAs in Hc. apply validatePhase_endsAs in Hv.
    simpl in Hc, Hv.
    assert (Hpre : clean (EvPrompt (QPrompt q) ans None
                            :: tr1 ++ tr2
                            ++ [EvCleanup (QPrompt q) ans2 cerr])).
    { apply clean_cons; auto. repeat apply clean_app; auto. clean_list. }
    destruct err as [e|]; simpl.
    + exists (EvPrompt (QPrompt q) ans None
                :: tr1 ++ tr2 ++ [EvCleanup (QPrompt q) ans2 cerr]),
        (EvWrite t (Name q) cv (Some e)).
      repeat split; auto.
      simpl. now rewrite <- !app_assoc.
    + replace (EvPrompt (QPrompt q) ans None
                 :: tr1 ++ tr2
                 ++ [EvCleanup (QPrompt q) ans2 cerr;
                     EvWrite t (Name q) cv None])
        with ((EvPrompt (QPrompt q) ans None
                 :: tr1 ++ tr2 ++ [EvCleanup (QPrompt q) ans2 cerr])
                ++ [EvWrite t (Name q) cv None])
        by (simpl; now rewrite <- !app_assoc).
      apply clean_app; auto. clean_list.
Qed.

Lemma sequenceRun_endsAs fuel t (qs : list Question) (tr : trace) o :
  sequenceRun fuel t qs tr o -> endsAs (fun r => r) tr o.
Proof.
  induction 1 as [|q qs tr o Hq _|q qs tr1 tr2 o Hq _ IH].
  - apply clean_nil.
  - eapply questionRun_endsAs, Hq.
  - apply questionRun_endsAs in Hq. simpl in Hq.
    now apply endsAs_app.
Qed.

(** The retry loops neither clean up nor bind; the conversion loop does not
    validate, the validation loop does not convert and checks one value. *)
Lemma convertRun_calls (p : Prompt) c fuel ans (tr : trace) o :
  convertRun p c fuel ans tr o ->
  bound tr = [] /\ writtenNames tr = [] /\ checkedValues tr = []
  /\ count isCleanup tr = 0 /\ count isValidate tr = 0.
Proof. induction 1; simpl; intuition. Qed.

Lemma validateRun_calls (p : Prompt) v cv fuel ans (tr : trace) o :
  validateRun p v cv fuel ans tr o ->
  bound tr = [] /\ writtenNames tr = []
  /\ Forall (eq cv) (checkedValues tr)
  /\ count isCleanup tr = 0 /\ count isConvert tr = 0.
Proof.
  induction 1; simpl; repeat split; try tauto;
    try (constructor; [reflexivity|]); try constructor; tauto.
Qed.

Lemma convertPhase_calls fuel (q : Question) ans (tr : trace) o :
  convertPhase fuel q ans tr o ->
  bound tr = [] /\ writtenNames tr = [] /\ checkedValues tr = []
  /\ count isCleanup tr = 0 /\ count isValidate tr = 0.
Proof.
  unfold convertPhase. destruct (Convert q).
  - apply convertRun_calls.
  - intros [-> _]. simpl. tauto.
Qed.

Lemma validatePhase_calls fuel (q : Question) ans cv (tr : trace) o :
  validatePhase fuel q ans cv tr o ->
  bound tr = [] /\ writtenNames tr = []
  /\ Forall (eq cv) (checkedValues tr)
  /\ count isCleanup tr = 0 /\ count isConvert tr = 0.
Proof.
  unfold validatePhase. destruct (Validate q).
  - apply validateRun_calls.
  - intros [-> _]. simpl. repeat split; auto.
Qed.

(** The raw value a loop hands on is the one [prompt()] returned last. *)
Lemma convertRun_lastRaw (p : Prompt) c fuel ans (tr : trace) o :
  convertRun p c fuel ans tr o ->
  forall a cv pre,
    o = Returned (inr (a, cv)) -> lastRaw pre = Some ans ->
    lastRaw (pre ++ tr) = Some a.
Proof.
  induction 1 as [|fuel ans cv0|fuel ans cv0 invalid err
                  |fuel ans cv0 invalid ans' err
                  |fuel ans cv0 invalid ans' tr o _ IH];
    intros a cv pre Ho Hpre; try discriminate.
  - injection Ho as <- _. rewrite lastRaw_app. simpl. exact Hpre.
  - change (EvConvert c ans cv0 (Some invalid)
              :: EvError p invalid None :: EvPrompt p ans' None :: tr)
      with ([EvConvert c ans cv0 (Some invalid);
             EvError p invalid None; EvPrompt p ans' None] ++ tr).
    rewrite app_assoc. apply (IH a cv); [exact Ho|].
    rewrite lastRaw_app. reflexivity.
Qed.

Lemma validateRun_lastRaw (p : Prompt) v cv fuel ans (tr : trace) o :
  validateRun p v cv fuel ans tr o ->
  forall a pre,
    o = Returned (inr a) -> lastRaw pre = Some ans ->
    lastRaw (pre ++ tr) = Some a.
Proof.
  induction 1 as [| | | | fuel ans invalid ans' tr o _ IH];
    intros a pre Ho Hpre; try discriminate.
  - injection Ho as <-. rewrite lastRaw_app. simpl. exact Hpre.
  - change (EvValidate v cv (Some invalid)
              :: EvError p invalid None :: EvPrompt p ans' None :: tr)
      with ([EvValidate v cv (Some invalid);
             EvError p invalid None; EvPrompt p ans' None] ++ tr).
    rewrite app_assoc. apply (IH a); [exact Ho|].
    rewrite lastRaw_app. reflexivity.
Qed.

Lemma convertPhase_lastRaw fuel (q : Question) ans (tr : trace) a cv pre :
  convertPhase fuel q ans tr (Returned (inr (a, cv))) ->
  lastRaw pre = Some ans -> lastRaw (pre ++ tr) = Some a.
Proof.
  unfold convertPhase. destruct (Convert q).
  - intros H. now apply (convertRun_lastRaw H) with (cv := cv).
  - intros [-> [= <- _]]. now rewrite app_nil_r.
Qed.

Lemma validatePhase_lastRaw fuel (q : Question) ans cv (tr : trace) a pre :
  validatePhase fuel q ans cv tr (Returned (inr a)) ->
  lastRaw pre = Some ans -> lastRaw (pre ++ tr) = Some a.
Proof.
  unfold validatePhase. destruct (Validate q).
  - intros H. now apply (validateRun_lastRaw H).
  - intros [-> [= <-]]. now rewrite app_nil_r.
Qed.

Lemma stops_outcome {A} (o1 : outcome (error + A)) o :
  stops o1 o -> o = OutOfFuel \/ exists e, o = Returned (Some e).
Proof.
  destruct o1 as [[e|a]|]; simpl; intros H; try contradiction; subst; eauto.
Qed.

(** The two ways a question can end: stopped inside the prompt loop,
    with no cleanup and nothing bound, or cleaned up once, with the raw
    value [prompt()] returned last, and then handed to the binder. *)
Lemma questionRun_shape fuel (q : Question) t (tr : trace) o :
  questionRun fuel q t tr o ->
  (count isCleanup tr = 0 /\ writtenNames tr = []
   /\ (o = OutOfFuel \/ exists e, o = Returned (Some e)))
  \/ (exists tr0 a cerr cv err,
         tr = tr0 ++ [EvCleanup (QPrompt q) a cerr;
                      EvWrite t (Name q) cv err]
         /\ o = Returned err
         /\ count isCleanup tr0 = 0 /\ writtenNames tr0 = []
         /\ lastRaw tr0 = Some a /\ clean tr0).
Proof.
  destruct 1 as [ans err
                | ans tr1 o1 o Hc Hs
                | ans tr1 ans1 cv tr2 o2 o Hc Hv Hs
                | ans tr1 ans1 cv tr2 ans2 cerr err Hc Hv].
  - left. simpl. eauto.
  - left. apply convertPhase_calls in Hc as (_ & Hw & _ & Hn & _).
    apply stops_outcome in Hs.
    change (EvPrompt (QPrompt q) ans None :: tr1)
      with ([EvPrompt (QPrompt q) ans None] ++ tr1).
    rewrite count_app, writtenNames_app, Hn, Hw. auto.
  - left. apply convertPhase_calls in Hc as (_ & Hw & _ & Hn & _).
    apply validatePhase_calls in Hv as (_ & Hw2 & _ & Hn2 & _).
    apply stops_outcome in Hs.
    change (EvPrompt (QPrompt q) ans None :: tr1 ++ tr2)
      with ([EvPrompt (QPrompt q) ans None] ++ tr1 ++ tr2).
    rewrite !count_app, !writtenNames_app, Hn, Hw, Hn2, Hw2. auto.
  - right.
    exists (EvPrompt (QPrompt q) ans None :: tr1 ++ tr2), ans2, cerr, cv, err.
    pose proof Hc as Hc1. apply convertPhase_endsAs in Hc1.
    pose proof Hv as Hv1. apply validatePhase_endsAs in Hv1.
    simpl in Hc1, Hv1.
    assert (Hl : lastRaw ([EvPrompt (QPrompt q) ans None] ++ tr1)
                 = Some ans1)
      by (eapply convertPhase_lastRaw; [exact Hc|reflexivity]).
    assert (Hl2 : lastRaw (([EvPrompt (QPrompt q) ans None] ++ tr1) ++ tr2)
                  = Some ans2)
      by (eapply validatePhase_lastRaw; [exact Hv|exact Hl]).
    apply convertPhase_calls in Hc as (_ & Hw & _ & Hn & _).
    apply validatePhase_calls in Hv as (_ & Hw2 & _ & Hn2 & _).
    repeat split.
    + simpl. now rewrite <- app_assoc.
    + change (EvPrompt (QPrompt q) ans None :: tr1 ++ tr2)
        with ([EvPrompt (QPrompt q) ans None] ++ tr1 ++ tr2).
      rewrite !count_app, Hn, Hn2. reflexivity.
    + change (EvPrompt (QPrompt q) ans None :: tr1 ++ tr2)
        with ([EvPrompt (QPrompt q) ans None] ++ tr1 ++ tr2).
      rewrite !writtenNames_app, Hw, Hw2. reflexivity.
    + exact Hl2.
    + apply clean_cons; auto using clean_app.
Qed.

Lemma writtenNames_none_bound (tr : trace) :
  writtenNames tr = [] -> bound tr = [].
Proof.
  induction tr as [|ev tr IH]; simpl; [reflexivity|].
  destruct ev; simpl; auto. discriminate.
Qed.

Lemma In_writtenNames (tr : trace) t name cv err :
  In (EvWrite t name cv err) tr -> In name (writtenNames tr).
Proof.
  induction tr as [|ev tr IH]; simpl; [tauto|].
  intros [->|Hin]; simpl; auto.
  destruct ev; simpl; auto.
Qed.

(** A question binds its own name, once, exactly when it returns nil. *)
Lemma questionRun_bound fuel (q : Question) t (tr : trace) o :
  questionRun fuel q t tr o ->
  (o = Returned None -> exists cv, bound tr = [(Name q, cv)])
  /\ (o <> Returned None -> bound tr = [])
  /\ (writtenNames tr = [] \/ writtenNames tr = [Name q]).
Proof.
  intros H. apply questionRun_shape in H
    as [(_ & Hw & Ho)|(tr0 & a & cerr & cv & err & -> & -> & _ & Hw & _)].
  - repeat split; auto using writtenNames_none_bound.
    intros ->. destruct Ho as [?|[? ?]]; discriminate.
  - rewrite bound_app, writtenNames_app, Hw, (writtenNames_none_bound _ Hw).
    simpl. repeat split; auto.
    + intros [= ->]. eauto.
    + destruct err; [reflexivity|congruence].
Qed.

Lemma sequenceRun_bound fuel t (qs : list Question) (tr : trace) o :
  sequenceRun fuel t qs tr o ->
  o = Returned None -> map fst (bound tr) = map Name qs.
Proof.
  induction 1 as [|q qs tr o Hq Hn|q qs tr1 tr2 o Hq _ IH]; intros Ho.
  - reflexivity.
  - contradiction.
  - apply questionRun_bound in Hq as (Hb & _).
    destruct (Hb eq_refl) as [cv Hcv].
    rewrite bound_app, Hcv. simpl. now rewrite IH.
Qed.

Lemma questionRun_written fuel (q : Question) t (tr : trace) :
  questionRun fuel q t tr (Returned None) -> writtenNames tr = [Name q].
Proof.
  intros H. apply questionRun_shape in H
    as [(_ & _ & [?|[? ?]])|(tr0 & a & cerr & cv & err & -> & _ & _ & Hw & _)];
    try discriminate.
  rewrite writtenNames_app, Hw. reflexivity.
Qed.

Lemma sequenceRun_written fuel t (qs : list Question) (tr : trace) o :
  sequenceRun fuel t qs tr o ->
  o = Returned None -> writtenNames tr = map Name qs.
Proof.
  induction 1 as [|q qs tr o Hq Hn|q qs tr1 tr2 o Hq _ IH]; intros Ho.
  - reflexivity.
  - contradiction.
  - rewrite writtenNames_app, (questionRun_written Hq), IH; auto.
Qed.

Lemma sequenceRun_writtenNames fuel t (qs : list Question) (tr : trace) o :
  sequenceRun fuel t qs tr o ->
  forall name, In name (writtenNames tr) -> In name (map Name qs).
Proof.
  induction 1 as [|q qs tr o Hq Hn|q qs tr1 tr2 o Hq _ IH];
    intros name Hin.
  - destruct Hin.
  - apply questionRun_bound in Hq as (_ & _ & [Hw|Hw]);
      rewrite Hw in Hin; simpl in *; tauto.
  - rewrite writtenNames_app in Hin. apply in_app_or in Hin as [Hin|Hin].
    + apply questionRun_bound in Hq as (_ & _ & [Hw|Hw]);
        rewrite Hw in Hin; simpl in *; tauto.
    + right. auto.
Qed.

(** *** Runs in which calls succeed *)

Lemma allSucceeded_allOk kind (tr : trace) :
  forallb succeeded tr = true -> allOk kind tr = true.
Proof.
  unfold allOk. rewrite !forallb_forall. intros H ev Hin.
  rewrite (H ev Hin). now destruct (kind ev).
Qed.

(** With fuel left and no failed conversion, the conversion loop converts
    once. *)
Lemma convertRun_happy (p : Prompt) c fuel ans (tr : trace) o :
  convertRun p c fuel ans tr o ->
  fuel <> 0 -> allOk isConvert tr = true ->
  exists cv, tr = [EvConvert c ans cv None]
             /\ o = Returned (inr (ans, cv)).
Proof.
  destruct 1; intros Hfuel Hok; try discriminate; [congruence|eauto].
Qed.

Lemma validateRun_happy (p : Prompt) v cv fuel ans (tr : trace) o :
  validateRun p v cv fuel ans tr o ->
  fuel <> 0 -> allOk isValidate tr = true ->
  tr = [EvValidate v cv None] /\ o = Returned (inr ans).
Proof.
  destruct 1; intros Hfuel Hok; try discriminate; [congruence|eauto].
Qed.

Lemma convertPhase_happy fuel (q : Question) ans (tr : trace) o :
  convertPhase fuel q ans tr o ->
  fuel <> 0 -> allOk isConvert tr = true ->
  exists cv,
    tr = match Convert q with
         | Some c => [EvConvert c ans cv None]
         | None => []
         end
    /\ o = Returned (inr (ans, cv))
    /\ (Convert q = None -> cv = ans).
Proof.
  unfold convertPhase. destruct (Convert q) as [c|].
  - intros H Hfuel Hok.
    destruct (convertRun_happy H Hfuel Hok) as (cv & -> & ->).
    exists cv. repeat split. discriminate.
  - intros [-> ->] _ _. exists ans. auto.
Qed.

Lemma validatePhase_happy fuel (q : Question) ans cv (tr : trace) o :
  validatePhase fuel q ans cv tr o ->
  fuel <> 0 -> allOk isValidate tr = true ->
  tr = match Validate q with
       | Some v => [EvValidate v cv None]
       | None => []
       end
  /\ o = Returned (inr ans).
Proof.
  unfold validatePhase. destruct (Validate q) as [v|].
  - intros H Hfuel Hok. exact (validateRun_happy H Hfuel Hok).
  - intros [-> ->] _ _. auto.
Qed.

(** With fuel left and no failed call, a question makes its
    [happyCalls] and returns nil. *)
Lemma questionRun_happy fuel (q : Question) t (tr : trace) o :
  questionRun fuel q t tr o ->
  fuel <> 0 -> forallb succeeded tr = true ->
  exists ans cv,
    tr = happyCalls t q ans cv /\ o = Returned None
    /\ (Convert q = None -> cv = ans).
Proof.
  destruct 1 as [ans err
                | ans tr1 o1 o Hc Hs
                | ans tr1 ans1 cv tr2 o2 o Hc Hv Hs
                | ans tr1 ans1 cv tr2 ans2 cerr err Hc Hv];
    intros Hfuel Hok; try discriminate.
  - simpl in Hok.
    apply (allSucceeded_allOk isConvert) in Hok.
    destruct (convertPhase_happy _ _ _ _ Hc Hfuel Hok) as (cv & _ & -> & _).
    contradiction.
  - simpl in Hok. rewrite forallb_app in Hok.
    apply andb_prop in Hok as [Hok1 Hok2].
    apply (allSucceeded_allOk isValidate) in Hok2.
    destruct (validatePhase_happy _ _ _ _ _ Hv Hfuel Hok2) as (_ & ->).
    contradiction.
  - simpl in Hok. rewrite !forallb_app in Hok.
    apply andb_prop in Hok as [Hok1 Hok2].
    apply andb_prop in Hok2 as [Hok2 Hok3].
    apply (allSucceeded_allOk isConvert) in Hok1.
    apply (allSucceeded_allOk isValidate) in Hok2.
    destruct (convertPhase_happy _ _ _ _ Hc Hfuel Hok1) as (cv' & -> & [= -> ->] & E).
    destruct (validatePhase_happy _ _ _ _ _ Hv Hfuel Hok2) as (-> & [= ->]).
    simpl in Hok3.
    destruct cerr; [discriminate|]. destruct err; [discriminate|].
    exists ans, cv'. unfold happyCalls. auto.
Qed.

Lemma bound_happyCalls (t : container) (q : Question) ans cv :
  bound (happyCalls t q ans cv) = [(Name q, cv)].
Proof.
  unfold happyCalls. destruct (Convert q), (Validate q); reflexivity.
Qed.

Lemma bound_happyTrace (t : container) (qs : list Question) :
  forall answers,
    List.length answers = List.length qs ->
    bound (happyTrace t qs answers)
    = combine (map Name qs) (map snd answers).
Proof.
  induction qs as [|q qs IH]; intros [|[ans cv] answers] Hlen;
    try discriminate; [reflexivity|].
  cbn [happyTrace]. rewrite bound_app, bound_happyCalls, IH.
  - reflexivity.
  - simpl in Hlen. congruence.
Qed.

(** With fuel left and no failed call, every question of the list makes
    its [happyCalls], in order, and the loop returns nil. *)
Lemma sequenceRun_happy fuel t (qs : list Question) (tr : trace) o :
  sequenceRun fuel t qs tr o ->
  fuel <> 0 -> forallb succeeded tr = true ->
  o = Returned None
  /\ exists answers,
      List.length answers = List.length qs
      /\ tr = happyTrace t qs answers
      /\ Forall2 (fun q a => Convert q = None -> snd a = fst a) qs answers.
Proof.
  induction 1 as [|q qs tr o Hq Hn|q qs tr1 tr2 o Hq _ IH];
    intros Hfuel Hok.
  - split; [reflexivity|]. exists []. auto.
  - destruct (questionRun_happy Hq Hfuel Hok) as (_ & _ & _ & Ho & _).
    contradiction.
  - rewrite forallb_app in Hok. apply andb_prop in Hok as [Hok1 Hok2].
    destruct (questionRun_happy Hq Hfuel Hok1) as (ans & cv & -> & _ & E).
    destruct (IH Hfuel Hok2) as (-> & answers & Hlen & -> & Hall).
    split; [reflexivity|]. exists ((ans, cv) :: answers).
    simpl. auto.
Qed.

(** *** A question without a converter *)

(** Without a converter, whatever is validated or handed to the binder is
    the raw value of the question's first [prompt()], and nothing is
    converted. *)
Lemma questionRun_unconverted fuel (q : Question) t (tr : trace) o :
  questionRun fuel q t tr o ->
  Convert q = None ->
  exists ans err tr',
    tr = EvPrompt (QPrompt q) ans err :: tr'
    /\ Forall (eq ans) (checkedValues tr)
    /\ count isConvert tr = 0.
Proof.
  destruct 1 as [ans err
                | ans tr1 o1 o Hc Hs
                | ans tr1 ans1 cv tr2 o2 o Hc Hv Hs
                | ans tr1 ans1 cv tr2 ans2 cerr err Hc Hv];
    intros Hnone; unfold convertPhase in *; try rewrite Hnone in Hc.
  - exists ans, (Some err), []. simpl. auto.
  - destruct Hc as [-> ->]. contradiction.
  - destruct Hc as [-> [= -> ->]].
    apply validatePhase_calls in Hv as (_ & _ & Hch & _ & Hn).
    exists ans, None, tr2. simpl. auto.
  - destruct Hc as [-> [= -> ->]].
    apply validatePhase_calls in Hv as (_ & _ & Hch & _ & Hn).
    exists ans, None,
      (tr2 ++ [EvCleanup (QPrompt q) ans2 cerr; EvWrite t (Name q) ans err]).
    simpl. rewrite checkedValues_app.
    change (count isConvert
              (EvPrompt (QPrompt q) ans None
                 :: tr2 ++ [EvCleanup (QPrompt q) ans2 cerr;
                            EvWrite t (Name q) ans err]))
      with (count isConvert
              (tr2 ++ [EvCleanup (QPrompt q) ans2 cerr;
                       EvWrite t (Name q) ans err])).
    rewrite count_app, Hn. repeat split.
    apply Forall_app. split; [exact Hch|]. simpl. auto.
Qed.

(** *** Cleanup *)



(** *** Retries *)

Lemma count_zero_outcomes kind (tr : trace) :
  count kind tr = 0 -> outcomes kind tr = [].
Proof.
  unfold count, outcomes. now destruct (filter kind tr).
Qed.

(** A conversion loop whose conversions failed twice and then succeeded:
    each failure is reported, followed by a new [prompt()], and the next
    conversion is applied to the raw value just obtained. *)
Lemma convertRun_two_failures (p : Prompt) c fuel ans (tr : trace) o e1 e2 :
  convertRun p c fuel ans tr o ->
  outcomes isConvert tr = [Some e1; Some e2; None] ->
  fuel <> 0
  /\ exists x1 a2 x2 a3 cv,
      tr = [EvConvert c ans x1 (Some e1); EvError p e1 None;
            EvPrompt p a2 None;
            EvConvert c a2 x2 (Some e2); EvError p e2 None;
            EvPrompt p a3 None;
            EvConvert c a3 cv None]
      /\ o = Returned (inr (a3, cv)).
Proof.
  unfold outcomes. intros H Ho.
  inversion H as [| | | |f0 a0 x1 i1 a2 tr0 o0 H0]; subst;
    simpl in Ho; try discriminate.
  injection Ho as -> Ho. split; [discriminate|].
  inversion H0 as [| | | |f1 a1 x2 i2 a3 tr1 o1 H1]; subst;
    simpl in Ho; try discriminate.
  injection Ho as -> Ho.
  inversion H1 as [|f2 a4 cv| | |]; subst; simpl in Ho; try discriminate.
  exists x1, a2, x2, a3, cv. auto.
Qed.

(** A validation loop whose validations failed once and then succeeded:
    the second validation is on the same working converted answer. *)
Lemma validateRun_one_failure (p : Prompt) v cv fuel ans (tr : trace) o e1 :
  validateRun p v cv fuel ans tr o ->
  outcomes isValidate tr = [Some e1; None] ->
  fuel <> 0
  /\ exists a2,
      tr = [EvValidate v cv (Some e1); EvError p e1 None;
            EvPrompt p a2 None; EvValidate v cv None]
      /\ o = Returned (inr a2).
Proof.
  unfold outcomes. intros H Ho.
  inversion H as [| | | |f0 a0 i1 a2 tr0 o0 H0]; subst;
    simpl in Ho; try discriminate.
  injection Ho as -> Ho. split; [discriminate|].
  inversion H0; subst; simpl in Ho; try discriminate.
  exists a2. auto.
Qed.

Lemma questionRun_two_conversion_failures
      fuel (q : Question) t (tr : trace) o c e1 e2 :
  questionRun fuel q t tr o ->
  Convert q = Some c ->
  outcomes isConvert tr = [Some e1; Some e2; None] ->
  allOk isValidate tr = true ->
  exists a1 x1 a2 x2 a3 cv cerr err,
    tr = [EvPrompt (QPrompt q) a1 None;
          EvConvert c a1 x1 (Some e1); EvError (QPrompt q) e1 None;
          EvPrompt (QPrompt q) a2 None;
          EvConvert c a2 x2 (Some e2); EvError (QPrompt q) e2 None;
          EvPrompt (QPrompt q) a3 None;
          EvConvert c a3 cv None]
         ++ match Validate q with
            | Some v => [EvValidate v cv None]
            | None => []
            end
         ++ [EvCleanup (QPrompt q) a3 cerr; EvWrite t (Name q) cv err]
    /\ o = Returned err.
Proof.
  destruct 1 as [ans err
                | ans tr1 o1 o Hc Hs
                | ans tr1 ans1 cv tr2 o2 o Hc Hv Hs
                | ans tr1 ans1 cv tr2 ans2 cerr err Hc Hv];
    intros HC Ho Hok;
    try (unfold convertPhase in Hc; rewrite HC in Hc).
  - discriminate.
  - change (outcomes isConvert tr1 = [Some e1; Some e2; None]) in Ho.
    destruct (convertRun_two_failures Hc Ho)
      as (_ & x1 & a2 & x2 & a3 & cv & _ & ->).
    contradiction.
  - change (EvPrompt (QPrompt q) ans None :: tr1 ++ tr2)
      with ([EvPrompt (QPrompt q) ans None] ++ tr1 ++ tr2) in Ho, Hok.
    rewrite !outcomes_app in Ho. rewrite !allOk_app in Hok.
    apply andb_prop in Hok as [_ Hok]. apply andb_prop in Hok as [_ Hok].
    pose proof Hv as Hn.
    apply validatePhase_calls in Hn as (_ & _ & _ & _ & Hn).
    rewrite (count_zero_outcomes _ _ Hn), app_nil_r in Ho. simpl in Ho.
    destruct (convertRun_two_failures Hc Ho) as (Hfuel & _).
    destruct (validatePhase_happy _ _ _ _ _ Hv Hfuel Hok) as (_ & ->).
    contradiction.
  - change (EvPrompt (QPrompt q) ans None
              :: tr1 ++ tr2
              ++ [EvCleanup (QPrompt q) ans2 cerr;
                  EvWrite t (Name q) cv err])
      with ([EvPrompt (QPrompt q) ans None] ++ tr1 ++ tr2
              ++ [EvCleanup (QPrompt q) ans2 cerr;
                  EvWrite t (Name q) cv err]) in Ho, Hok.
    rewrite !outcomes_app in Ho. rewrite !allOk_app in Hok.
    apply andb_prop in Hok as [_ Hok]. apply andb_prop in Hok as [_ Hok].
    apply andb_prop in Hok as [Hok _].
    pose proof Hv as Hn.
    apply validatePhase_calls in Hn as (_ & _ & _ & _ & Hn).
    rewrite (count_zero_outcomes _ _ Hn) in Ho. simpl in Ho.
    rewrite app_nil_r in Ho.
    destruct (convertRun_two_failures Hc Ho)
      as (Hfuel & x1 & a2 & x2 & a3 & cv' & -> & [= -> ->]).
    destruct (validatePhase_happy _ _ _ _ _ Hv Hfuel Hok) as (-> & [= ->]).
    exists ans, x1, a2, x2, a3, cv', cerr, err. split; reflexivity.
Qed.

End RunLemmas.

(** ** The range loop *)

Section Sequencer.

Variables W value error container : Type.
Variable errors_New : string -> error.
Variable WriteAnswer :
  container -> string -> value -> W -> option error * W.

#[local] Abbreviation Prompt := (Prompt W value error).
#[local] Abbreviation Question := (Question W value error).
#[local] Abbreviation trace := (trace W value error container).
#[local] Abbreviation askQuestion := (askQuestion WriteAnswer).
#[local] Abbreviation askLoop := (askLoop WriteAnswer).
#[local] Abbreviation Ask := (Ask errors_New WriteAnswer).
#[local] Abbreviation AskOne := (AskOne errors_New WriteAnswer).

(** [if err != nil { return err }; return nil] returns [err]. *)
Lemma bind_return_err (m : M W value error container (option error)) w :
  bind m (fun err => match err with
                     | Some _ => ret err
                     | None => ret None
                     end) w = m w.
Proof.
  unfold bind. destruct (m w) as [[[[err|]|] w1] tr1]; simpl;
    now rewrite ?app_nil_r.
Qed.

(** One turn of the range loop. *)
Lemma askLoop_cons fuel (q : Question) qs t w :
  askLoop fuel (q :: qs) t w =
  match askQuestion fuel q t w with
  | (Returned None, w1, tr1) =>
      match askLoop fuel qs t w1 with
      | (o, w2, tr2) => (o, w2, tr1 ++ tr2)
      end
  | (Returned (Some err), w1, tr1) => (Returned (Some err), w1, tr1)
  | (OutOfFuel, w1, tr1) => (OutOfFuel, w1, tr1)
  end.
Proof.
  simpl. unfold bind.
  destruct (askQuestion fuel q t w) as [[[[err|]|] w1] tr1]; simpl;
    now rewrite ?app_nil_r.
Qed.

(** The calls of [askLoop] are a [sequenceRun]. *)
Lemma askLoop_run fuel t (qs : list Question) :
  forall w o w' (tr : trace),
    askLoop fuel qs t w = (o, w', tr) -> sequenceRun fuel t qs tr o.
Proof.
  induction qs as [|q qs IH]; intros w o w' tr.
  - intros [= <- _ <-]. constructor.
  - rewrite askLoop_cons.
    destruct (askQuestion fuel q t w) as [[[[err|]|] w1] tr1] eqn:Eq;
      apply askQuestion_run in Eq.
    + intros [= <- _ <-]. now apply SequenceStopped.
    + destruct (askLoop fuel qs t w1) as [[o2 w2] tr2] eqn:El.
      intros [= <- _ <-]. apply SequenceNext; eauto.
    + intros [= <- _ <-]. now apply SequenceStopped.
Qed.

(** Questions that all returned nil, followed by more questions. *)
Lemma askLoop_app fuel t (pre rest : list Question) :
  forall w w1 (tr1 : trace),
    askLoop fuel pre t w = (Returned None, w1, tr1) ->
    askLoop fuel (pre ++ rest) t w =
    match askLoop fuel rest t w1 with
    | (o, w2, tr2) => (o, w2, tr1 ++ tr2)
    end.
Proof.
  induction pre as [|q pre IH]; intros w w1 tr1.
  - intros [= <- <-]. simpl app.
    now destruct (askLoop fuel rest t w) as [[o w2] tr2].
  - rewrite <- app_comm_cons, !askLoop_cons.
    destruct (askQuestion fuel q t w) as [[[[err|]|] w0] tr0];
      try discriminate.
    destruct (askLoop fuel pre t w0) as [[o1 w1'] tr1'] eqn:El.
    intros [= -> -> <-]. rewrite (IH _ _ _ El).
    destruct (askLoop fuel rest t w1) as [[o w2] tr2].
    now rewrite app_assoc.
Qed.

(** *** More fuel does not change a run that returned *)

Lemma convertLoop_fuel (p : Prompt) c fuel :
  forall fuel' ans w r w' (tr : trace),
    fuel <= fuel' ->
    convertLoop fuel p c ans w = (Returned r, w', tr) ->
    convertLoop fuel' p c ans w = (Returned r, w', tr).
Proof.
  induction fuel as [|fuel IH]; intros [|fuel'] ans w r w' tr Hle;
    try discriminate; try lia.
  simpl. run_call.
  destruct (c ans w) as [[cv [invalid|]] w1]; simpl; [|auto].
  destruct (Prompt_Error p invalid w1) as [[err|] w2]; simpl; [auto|].
  destruct (Prompt_Prompt p w2) as [[ans' [err|]] w3]; simpl; [auto|].
  destruct (convertLoop fuel p c ans' w3) as [[[r1|] w4] tr1] eqn:E;
    [|discriminate].
  rewrite (IH fuel' _ _ _ _ _ ltac:(lia) E). auto.
Qed.

Lemma validateLoop_fuel (p : Prompt) v cv fuel :
  forall fuel' ans w r w' (tr : trace),
    fuel <= fuel' ->
    validateLoop fuel p v ans cv w = (Returned r, w', tr) ->
    validateLoop fuel' p v ans cv w = (Returned r, w', tr).
Proof.
  induction fuel as [|fuel IH]; intros [|fuel'] ans w r w' tr Hle;
    try discriminate; try lia.
  simpl. run_call.
  destruct (v cv w) as [[invalid|] w1]; simpl; [|auto].
  destruct (Prompt_Error p invalid w1) as [[err|] w2]; simpl; [auto|].
  destruct (Prompt_Prompt p w2) as [[ans' [err|]] w3]; simpl; [auto|].
  destruct (validateLoop fuel p v ans' cv w3) as [[[r1|] w4] tr1] eqn:E;
    [|discriminate].
  rewrite (IH fuel' _ _ _ _ _ ltac:(lia) E). auto.
Qed.

Lemma askQuestion_fuel fuel fuel' (q : Question) t w r w' (tr : trace) :
  fuel <= fuel' ->
  askQuestion fuel q t w = (Returned r, w', tr) ->
  askQuestion fuel' q t w = (Returned r, w', tr).
Proof.
  intros Hle. unfold askQuestion. run_call.
  destruct (Prompt_Prompt (QPrompt q) w) as [[ans [err|]] w1]; simpl;
    [auto|].
  assert (Hc : forall o1 w2 (tr1 : trace),
             match Convert q with
             | Some c => convertLoop fuel (QPrompt q) c ans
             | None => fun w => (Returned (inr (ans, ans)), w, [])
             end w1 = (Returned o1, w2, tr1) ->
             match Convert q with
             | Some c => convertLoop fuel' (QPrompt q) c ans
             | None => fun w => (Returned (inr (ans, ans)), w, [])
             end w1 = (Returned o1, w2, tr1)).
  { destruct (Convert q); [|auto]. intros. now apply convertLoop_fuel with fuel. }
  destruct (match Convert q with
            | Some c => convertLoop fuel (QPrompt q) c ans
            | None => fun w => (Returned (inr (ans, ans)), w, [])
            end w1) as [[[o1|] w2] tr1] eqn:E1; [|discriminate].
  rewrite (Hc _ _ _ eq_refl). clear Hc E1.
  destruct o1 as [e|[ans1 cv]]; simpl; [auto|].
  assert (Hv : forall o2 w3 (tr2 : trace),
             match Validate q with
             | Some v => validateLoop fuel (QPrompt q) v ans1 cv
             | None => fun w => (Returned (inr ans1), w, [])
             end w2 = (Returned o2, w3, tr2) ->
             match Validate q with
             | Some v => validateLoop fuel' (QPrompt q) v ans1 cv
             | None => fun w => (Returned (inr ans1), w, [])
             end w2 = (Returned o2, w3, tr2)).
  { destruct (Validate q); [|auto]. intros. now apply validateLoop_fuel with fuel. }
  destruct (match Validate q with
            | Some v => validateLoop fuel (QPrompt q) v ans1 cv
            | None => fun w => (Returned (inr ans1), w, [])
            end w2) as [[[o2|] w3] tr2] eqn:E2; [|discriminate].
  rewrite (Hv _ _ _ eq_refl). auto.
Qed.

Lemma askLoop_fuel fuel fuel' t (qs : list Question) :
  fuel <= fuel' ->
  forall w r w' (tr : trace),
    askLoop fuel qs t w = (Returned r, w', tr) ->
    askLoop fuel' qs t w = (Returned r, w', tr).
Proof.
  intros Hle. induction qs as [|q qs IH]; intros w r w' tr; [auto|].
  rewrite !askLoop_cons.
  destruct (askQuestion fuel q t w) as [[[[err|]|] w1] tr1] eqn:E;
    try discriminate;
    rewrite (askQuestion_fuel _ _ _ Hle E); [auto|].
  destruct (askLoop fuel qs t w1) as [[[r2|] w2] tr2] eqn:E2;
    [|discriminate].
  rewrite (IH _ _ _ _ E2). auto.
Qed.

(** A run of [Ask] that returned with some fuel returns the same, after
    the same calls, with any larger amount: [OutOfFuel] for every amount
    of fuel is a run that never returns. *)
Lemma Ask_fuel fuel fuel' (qs : list Question) t w r w' (tr : trace) :
  fuel <= fuel' ->
  Ask fuel qs t w = (Returned r, w', tr) ->
  Ask fuel' qs t w = (Returned r, w', tr).
Proof.
  intros Hle. destruct t as [t|]; simpl; [|auto].
  now apply askLoop_fuel.
Qed.

(** *** What [Cleanup] returns is not looked at *)







(** *** A validator that never accepts *)

(** If [v] turns [cv] down in every world while [error()] and [prompt()]
    never fail, the validation loop uses up any fuel, one validation per
    unit. *)
Lemma validateLoop_diverges (p : Prompt) v cv :
  (forall w, fst (v cv w) <> None) ->
  (forall e w, fst (Prompt_Error p e w) = None) ->
  (forall w, snd (fst (Prompt_Prompt p w)) = None) ->
  forall fuel ans w,
    result (validateLoop (container := container) fuel p v ans cv w)
    = OutOfFuel
    /\ count isValidate
         (calls (validateLoop (container := container) fuel p v ans cv w))
       = fuel.
Proof.
  intros Hv He Hp. induction fuel as [|fuel IH]; intros ans w.
  - split; reflexivity.
  - simpl. run_call.
    specialize (Hv w). destruct (v cv w) as [[invalid|] w1];
      [clear Hv|now contradiction Hv]. simpl.
    specialize (He invalid w1).
    destruct (Prompt_Error p invalid w1) as [[err|] w2];
      [discriminate He|clear He]. simpl.
    specialize (Hp w2).
    destruct (Prompt_Prompt p w2) as [[ans' [err|]] w3];
      [discriminate Hp|clear Hp]. simpl.
    destruct (IH ans' w3) as [Hr Hc].
    destruct (validateLoop fuel p v ans' cv w3) as [[o w4] tr].
    unfold result, calls in *. simpl in *. subst o.
    split; [reflexivity|]. unfold count in *. simpl. now rewrite Hc.
Qed.

(** C5: when the answer container is nil, [Ask] returns the configuration
    error at once: no [prompt()], [error()], cleanup or bind call is made
    (the trace is empty) and the world is untouched, whatever the
    questions. *)
Theorem Ask_nil_container fuel (qs : list Question) w :
  Ask fuel qs None w =
  (Returned
     (Some (errors_New
        "cannot call Ask() with a nil reference to record the answers")),
   w, []).
Proof. reflexivity. Qed.

(** C6: [AskOne p t v c] is [Ask] on the one-question list made of [p],
    [v] and [c]: same returned error or nil, same final world and same
    sequence of prompt, convert, validate and bind calls, for every
    amount of fuel. *)
Theorem AskOne_is_Ask_singleton fuel (p : Prompt) t v c w :
  AskOne fuel p t v c w =
  Ask fuel [{| Name := ""; QPrompt := p; Validate := v; Convert := c |}] t w.
Proof. apply bind_return_err. Qed.

(** C10: every call [AskOne] makes to the Answer Binder carries the empty
    string as the name, and a run of [AskOne] that returns nil has made
    exactly one such call. *)
Theorem AskOne_binds_empty_name fuel (p : Prompt) t v c w :
  (forall tc name cv err,
      In (EvWrite tc name cv err) (calls (AskOne fuel p t v c w)) ->
      name = "")
  /\ (result (AskOne fuel p t v c w) = Returned None ->
      writtenNames (calls (AskOne fuel p t v c w)) = [""]).
Proof.
  unfold AskOne. rewrite bind_return_err.
  destruct t as [tc|]; unfold Ask.
  - destruct (askLoop fuel [{| Name := ""; QPrompt := p; Validate := v;
                               Convert := c |}] tc w)
      as [[o w1] tr1] eqn:E.
    apply askLoop_run in E. unfold result, calls. simpl. split.
    + intros tc' name cv err Hin. apply In_writtenNames in Hin.
      apply (sequenceRun_writtenNames E) in Hin.
      simpl in Hin. destruct Hin as [<-|[]]. reflexivity.
    + intros ->. now rewrite (sequenceRun_written E).
  - split; [intros ? ? ? ? []|discriminate].
Qed.

(** C2: let questions 1..k-1 ([pre]) have returned nil, and let a
    [prompt()], [error()] or bind call [ev] of question k ([q]) fail with
    [e].  Then [Ask] on the whole list returns exactly [e]; its calls are
    those of questions 1..k-1 followed by those of question k, the failed
    call being the last one, so that nothing of questions k+1..n ([post])
    is ever called; and the answers bound are still those of questions
    1..k-1, one per question. *)
Theorem Ask_aborts_on_failure fuel (pre : list Question) q post t
        w w1 (tr1 : trace) o w2 tr2 ev e :
  Ask fuel pre (Some t) w = (Returned None, w1, tr1) ->
  askQuestion fuel q t w1 = (o, w2, tr2) ->
  In ev tr2 -> fatal ev = Some e ->
  Ask fuel (pre ++ q :: post) (Some t) w
  = (Returned (Some e), w2, tr1 ++ tr2)
  /\ (exists tr0, tr2 = tr0 ++ [ev] /\ clean tr0)
  /\ bound (tr1 ++ tr2) = bound tr1
  /\ map fst (bound tr1) = map Name pre.
Proof.
  unfold Ask. intros Hpre Hq Hin Hf.
  pose proof Hq as Hrun. apply askQuestion_run in Hrun.
  pose proof (questionRun_endsAs Hrun) as Hends.
  assert (Hlast : (exists a, o = Returned a /\ a = Some e)
                  /\ exists tr0, tr2 = tr0 ++ [ev] /\ clean tr0)
    by (eapply (endsAs_fatal (fun r => r)); eauto).
  destruct Hlast as [(a & -> & ->) Hlast].
  repeat split.
  - erewrite askLoop_app by exact Hpre.
    rewrite askLoop_cons, Hq. reflexivity.
  - exact Hlast.
  - apply questionRun_bound in Hrun as (_ & Hb & _).
    rewrite bound_app, Hb, app_nil_r; [reflexivity|discriminate].
  - apply askLoop_run in Hpre. now apply (sequenceRun_bound Hpre).
Qed.

(** C1: with fuel for one turn of each loop, if every call made in the
    run succeeds, [Ask] returns nil; its calls are, question after
    question, one [prompt()], one conversion if there is a converter, one
    validation if there is a validator, one cleanup and one bind; so the
    container receives exactly one value per question, under the
    question's name and in the order of the list, and that value is what
    the converter returned for the raw answer, or the raw answer itself
    when there is no converter. *)
Theorem Ask_all_succeed fuel (qs : list Question) t w :
  fuel <> 0 ->
  forallb succeeded (calls (Ask fuel qs (Some t) w)) = true ->
  result (Ask fuel qs (Some t) w) = Returned None
  /\ exists answers,
      List.length answers = List.length qs
      /\ calls (Ask fuel qs (Some t) w) = happyTrace t qs answers
      /\ bound (calls (Ask fuel qs (Some t) w))
         = combine (map Name qs) (map snd answers)
      /\ Forall2 (fun q a => Convert q = None -> snd a = fst a)
                 qs answers.
Proof.
  unfold Ask.
  destruct (askLoop fuel qs t w)
    as [[o w1] tr] eqn:E.
  unfold result, calls. simpl. intros Hfuel Hok.
  apply askLoop_run in E.
  destruct (sequenceRun_happy E Hfuel Hok)
    as (-> & answers & Hlen & -> & Hall).
  split; [reflexivity|]. exists answers.
  auto using bound_happyTrace.
Qed.


(** C9: [Ask] need not terminate.  Take a first question with a
    validator and no converter, whose [prompt()] and [error()] never fail
    and whose validator turns down, in every world, the raw value of the
    first [prompt()] (a pure validator that rejects that value does).
    Then no amount of fuel lets [Ask] return: the validation loop checks
    that same value once per unit of fuel and the run is still going. *)
Theorem Ask_need_not_terminate (q : Question) qs t w v :
  Validate q = Some v ->
  Convert q = None ->
  (forall w', snd (fst (Prompt_Prompt (QPrompt q) w')) = None) ->
  (forall e w', fst (Prompt_Error (QPrompt q) e w') = None) ->
  (forall w', fst (v (fst (fst (Prompt_Prompt (QPrompt q) w))) w') <> None) ->
  forall fuel,
    result (Ask fuel (q :: qs) (Some t) w) = OutOfFuel
    /\ count isValidate (calls (Ask fuel (q :: qs) (Some t) w)) = fuel
    /\ Forall (eq (fst (fst (Prompt_Prompt (QPrompt q) w))))
              (checkedValues (calls (Ask fuel (q :: qs) (Some t) w))).
Proof.
  intros HV HC Hp He Hv fuel.
  unfold Ask. rewrite askLoop_cons.
  destruct (askQuestion fuel q t w)
    as [[o w1] tr] eqn:E.
  pose proof E as Hrun. apply askQuestion_run in Hrun.
  destruct (questionRun_unconverted Hrun HC)
    as (a & err & tr' & Htr & Hch & _).
  revert E Htr Hv. unfold askQuestion. rewrite HV, HC. run_call.
  pose proof (Hp w) as Hp0.
  destruct (Prompt_Prompt (QPrompt q) w) as [[ans [err0|]] w0];
    [discriminate Hp0|clear Hp0]. simpl.
  intros E Htr Hv.
  destruct (validateLoop_diverges (QPrompt q) v ans Hv He Hp fuel ans w0)
    as [Hr Hc].
  destruct (validateLoop fuel (QPrompt q) v ans ans w0) as [[o2 w2] tr2].
  unfold result, calls in Hr, Hc. simpl in Hr, Hc. subst o2.
  injection E as <- _ <-. injection Htr as <- _ _.
  unfold result, calls. simpl. repeat split; [|exact Hch].
  exact Hc.
Qed.

(** C4, as amended: for a question with a converter, in a run where
    conversion fails exactly twice and then succeeds and no validation
    fails, [prompt()] is called exactly three times and [error()] exactly
    twice before the answer is handed to the binder, and every conversion
    is applied to the raw value of the [prompt()] call just before it.
    (Each failed validation adds one [error()] and one [prompt()] call:
    see [askQuestion_conversion_retries_counterexample].) *)
Theorem askQuestion_conversion_retries fuel (q : Question) t w c e1 e2 :
  Convert q = Some c ->
  outcomes isConvert (calls (askQuestion fuel q t w))
  = [Some e1; Some e2; None] ->
  allOk isValidate (calls (askQuestion fuel q t w)) = true ->
  exists a1 x1 a2 x2 a3 cv cerr err,
    calls (askQuestion fuel q t w)
    = [EvPrompt (QPrompt q) a1 None;
       EvConvert c a1 x1 (Some e1); EvError (QPrompt q) e1 None;
       EvPrompt (QPrompt q) a2 None;
       EvConvert c a2 x2 (Some e2); EvError (QPrompt q) e2 None;
       EvPrompt (QPrompt q) a3 None;
       EvConvert c a3 cv None]
        ++ match Validate q with
           | Some v => [EvValidate v cv None]
           | None => []
           end
        ++ [EvCleanup (QPrompt q) a3 cerr; EvWrite t (Name q) cv err]
    /\ result (askQuestion fuel q t w) = Returned err
    /\ count isPrompt (calls (askQuestion fuel q t w)) = 3
    /\ count isError (calls (askQuestion fuel q t w)) = 2.
Proof.
  destruct (askQuestion fuel q t w)
    as [[o w1] tr] eqn:E.
  apply askQuestion_run in E. unfold result, calls. simpl.
  intros HC Ho Hok.
  destruct (questionRun_two_conversion_failures E HC Ho Hok)
    as (a1 & x1 & a2 & x2 & a3 & cv & cerr & err & -> & ->).
  exists a1, x1, a2, x2, a3, cv, cerr, err.
  repeat split; destruct (Validate q); reflexivity.
Qed.

End Sequencer.

(** * Concrete runs on the scripted terminal *)

Module Witnesses.

Import Scripted.

Lemma Ask_all_succeed_witness :
  1 <> 0
  /\ forallb succeeded
       (calls (ask 1 [question "age" terminal (Some atLeastTen) (Some halve);
                      question "floor" terminal None None]
                   (Some tt) (keyboard [24; 7]))) = true
  /\ result (ask 1 [question "age" terminal (Some atLeastTen) (Some halve);
                    question "floor" terminal None None]
                 (Some tt) (keyboard [24; 7])) = Returned None.
Proof.
  assert (H1 : 1 <> 0) by discriminate.
  split; [exact H1|]. split; [reflexivity|].
  apply (Ask_all_succeed (fun s => s) record
           [question "age" terminal (Some atLeastTen) (Some halve);
            question "floor" terminal None None] tt (keyboard [24; 7]) H1).
  reflexivity.
Defined.

Lemma Ask_aborts_on_failure_witness :
  In (EvPrompt terminal 0 (Some "EOF"))
     (calls (askQuestion record 1 (question "b" terminal None (Some halve))
                         tt {| stdin := [3]; rejections := 0;
                               answers := [("a", 6)] |}))
  /\ ask 1 ([question "a" terminal None None]
              ++ question "b" terminal None (Some halve)
              :: [question "c" terminal None None])
         (Some tt) (keyboard [6; 3])
     = (Returned (Some "EOF"),
        {| stdin := []; rejections := 0; answers := [("a", 6)] |},
        [EvPrompt terminal 6 None; EvCleanup terminal 6 None;
         EvWrite tt "a" 6 None]
          ++ [EvPrompt terminal 3 None; EvConvert halve 3 0 (Some "odd");
              EvError terminal "odd" None;
              EvPrompt terminal 0 (Some "EOF")]).
Proof.
  split; [simpl; auto|].
  eapply (Ask_aborts_on_failure (fun s => s) record 1
           [question "a" terminal None None]
           (question "b" terminal None (Some halve))
           [question "c" terminal None None]
           tt (keyboard [6; 3])
           (EvPrompt terminal 0 (Some "EOF"))).
  - reflexivity.
  - reflexivity.
  - simpl. auto.
  - reflexivity.
Defined.

Lemma askQuestion_conversion_retries_witness :
  outcomes isConvert
    (calls (askQuestion record 3 (question "half" terminal None (Some halve))
                        tt (keyboard [1; 3; 4])))
  = [Some "odd"; Some "odd"; None]
  /\ count isPrompt
       (calls (askQuestion record 3
                 (question "half" terminal None (Some halve))
                 tt (keyboard [1; 3; 4]))) = 3
  /\ count isError
       (calls (askQuestion record 3
                 (question "half" terminal None (Some halve))
                 tt (keyboard [1; 3; 4]))) = 2.
Proof.
  split; [reflexivity|].
  destruct (askQuestion_conversion_retries record 3
              (question "half" terminal None (Some halve))
              tt (keyboard [1; 3; 4]) eq_refl eq_refl eq_refl)
    as (a1 & x1 & a2 & x2 & a3 & cv & cerr & err & _ & _ & Hp & He).
  split; assumption.
Defined.


Lemma Ask_need_not_terminate_witness :
  result (ask 5 [question "n" patient (Some atLeastTen) None]
              (Some tt) (keyboard [4])) = OutOfFuel
  /\ count isValidate
       (calls (ask 5 [question "n" patient (Some atLeastTen) None]
                   (Some tt) (keyboard [4]))) = 5
  /\ Forall (eq 4)
       (checkedValues
          (calls (ask 5 [question "n" patient (Some atLeastTen) None]
                      (Some tt) (keyboard [4])))).
Proof.
  apply (Ask_need_not_terminate (fun s => s) record
           (question "n" patient (Some atLeastTen) None) [] tt
           (keyboard [4]) (v := atLeastTen) eq_refl eq_refl).
  - reflexivity.
  - reflexivity.
  - discriminate.
Defined.

Lemma AskOne_binds_empty_name_witness :
  result (askOne 0 terminal (Some tt) None None (keyboard [5]))
  = Returned None
  /\ writtenNames (calls (askOne 0 terminal (Some tt) None None
                                 (keyboard [5]))) = [""].
Proof.
  split; [reflexivity|].
  apply (AskOne_binds_empty_name (fun s => s) record 0 terminal (Some tt)
           None None (keyboard [5])).
  reflexivity.
Defined.

End Witnesses.

(** * More about the runs of [Ask] *)

Section MoreRuns.

Variables W value error container : Type.

#[local] Abbreviation Prompt := (Prompt W value error).
#[local] Abbreviation Question := (Question W value error).
#[local] Abbreviation trace := (trace W value error container).

Lemma reported_app (tr1 tr2 : trace) :
  reported (tr1 ++ tr2) = reported tr1 ++ reported tr2.
Proof.
  induction tr1 as [|ev tr1 IH]; simpl; [reflexivity|].
  destruct ev; simpl; now rewrite ?IH.
Qed.

Lemma refused_app (tr1 tr2 : trace) :
  refused (tr1 ++ tr2) = refused tr1 ++ refused tr2.
Proof.
  induction tr1 as [|ev tr1 IH]; simpl; [reflexivity|].
  destruct ev as [| | |? ? ? [?|]|? ? [?|]|]; simpl; now rewrite ?IH.
Qed.

Lemma count_cons kind ev (tr : trace) :
  count kind (ev :: tr) = (if kind ev then 1 else 0) + count kind tr.
Proof. unfold count. simpl. now destruct (kind ev). Qed.

(** *** Every refusal is reported *)

Lemma convertRun_reported (p : Prompt) c fuel ans (tr : trace) o :
  convertRun p c fuel ans tr o -> reported tr = refused tr.
Proof. induction 1; simpl; congruence. Qed.

Lemma validateRun_reported (p : Prompt) v cv fuel ans (tr : trace) o :
  validateRun p v cv fuel ans tr o -> reported tr = refused tr.
Proof. induction 1; simpl; congruence. Qed.

Lemma convertPhase_reported fuel (q : Question) ans (tr : trace) o :
  convertPhase fuel q ans tr o -> reported tr = refused tr.
Proof.
  unfold convertPhase. destruct (Convert q).
  - apply convertRun_reported.
  - now intros [-> _].
Qed.

Lemma validatePhase_reported fuel (q : Question) ans cv (tr : trace) o :
  validatePhase fuel q ans cv tr o -> reported tr = refused tr.
Proof.
  unfold validatePhase. destruct (Validate q).
  - apply validateRun_reported.
  - now intros [-> _].
Qed.

Lemma questionRun_reported fuel (q : Question) t (tr : trace) o :
  questionRun fuel q t tr o -> reported tr = refused tr.
Proof.
  destruct 1 as [ans err
                | ans tr1 o1 o Hc Hs
                | ans tr1 ans1 cv tr2 o2 o Hc Hv Hs
                | ans tr1 ans1 cv tr2 ans2 cerr err Hc Hv];
    try apply convertPhase_reported in Hc;
    try apply validatePhase_reported in Hv;
    simpl; rewrite ?reported_app, ?refused_app; simpl; congruence.
Qed.

Lemma sequenceRun_reported fuel t (qs : list Question) (tr : trace) o :
  sequenceRun fuel t qs tr o -> reported tr = refused tr.
Proof.
  induction 1 as [|q qs tr o Hq _|q qs tr1 tr2 o Hq _ IH].
  - reflexivity.
  - eapply questionRun_reported, Hq.
  - rewrite reported_app, refused_app, IH.
    now rewrite (questionRun_reported Hq).
Qed.

(** *** Prompts and reports *)

(** A retry loop that hands a value on has prompted once per report. *)
Lemma convertRun_prompts (p : Prompt) c fuel ans (tr : trace) o :
  convertRun p c fuel ans tr o ->
  forall r, o = Returned (inr r) -> count isPrompt tr = count isError tr.
Proof.
  induction 1; intros r Ho; try discriminate; rewrite ?count_cons; simpl;
    [reflexivity|]. f_equal. eauto.
Qed.

Lemma validateRun_prompts (p : Prompt) v cv fuel ans (tr : trace) o :
  validateRun p v cv fuel ans tr o ->
  forall r, o = Returned (inr r) -> count isPrompt tr = count isError tr.
Proof.
  induction 1; intros r Ho; try discriminate; rewrite ?count_cons; simpl;
    [reflexivity|]. f_equal. eauto.
Qed.

Lemma questionRun_prompts fuel (q : Question) t (tr : trace) :
  questionRun fuel q t tr (Returned None) ->
  count isPrompt tr = 1 + count isError tr.
Proof.
  intros H. remember (Returned None) as o eqn:Ho.
  destruct H as [ans err
                | ans tr1 o1 o Hc Hs
                | ans tr1 ans1 cv tr2 o2 o Hc Hv Hs
                | ans tr1 ans1 cv tr2 ans2 cerr err Hc Hv].
  - discriminate.
  - apply stops_outcome in Hs as [->|[e ->]]; discriminate.
  - apply stops_outcome in Hs as [->|[e ->]]; discriminate.
  - assert (H1 : count isPrompt tr1 = count isError tr1).
    { unfold convertPhase in Hc. destruct (Convert q).
      - eapply convertRun_prompts; eauto.
      - now destruct Hc as [-> _]. }
    assert (H2 : count isPrompt tr2 = count isError tr2).
    { unfold validatePhase in Hv. destruct (Validate q).
      - eapply validateRun_prompts; eauto.
      - now destruct Hv as [-> _]. }
    rewrite !count_cons, !count_app, H1, H2. simpl.
    rewrite !count_cons. simpl. reflexivity.
Qed.

Lemma sequenceRun_prompts fuel t (qs : list Question) (tr : trace) o :
  sequenceRun fuel t qs tr o ->
  o = Returned None ->
  count isPrompt tr = List.length qs + count isError tr.
Proof.
  induction 1 as [|q qs tr o Hq Hn|q qs tr1 tr2 o Hq _ IH]; intros Ho.
  - reflexivity.
  - contradiction.
  - rewrite !count_app, (questionRun_prompts Hq), (IH Ho). simpl. lia.
Qed.

(** *** Running out of fuel *)

(** A retry loop runs out of fuel only after as many refusals. *)
Lemma convertRun_starved (p : Prompt) c fuel ans (tr : trace) :
  convertRun p c fuel ans tr OutOfFuel -> List.length (refused tr) = fuel.
Proof.
  intros H. remember OutOfFuel as o eqn:Ho.
  induction H; try discriminate; simpl; auto.
Qed.

Lemma validateRun_starved (p : Prompt) v cv fuel ans (tr : trace) :
  validateRun p v cv fuel ans tr OutOfFuel ->
  List.length (refused tr) = fuel.
Proof.
  intros H. remember OutOfFuel as o eqn:Ho.
  induction H; try discriminate; simpl; auto.
Qed.

Lemma questionRun_starved fuel (q : Question) t (tr : trace) :
  questionRun fuel q t tr OutOfFuel ->
  fuel <= List.length (refused tr)
  /\ (Convert q <> None \/ Validate q <> None).
Proof.
  intros H. remember OutOfFuel as o eqn:Ho.
  destruct H as [ans err
                | ans tr1 o1 o Hc Hs
                | ans tr1 ans1 cv tr2 o2 o Hc Hv Hs
                | ans tr1 ans1 cv tr2 ans2 cerr err Hc Hv];
    try discriminate.
  - subst o. destruct o1 as [[e|r]|]; simpl in Hs; try easy.
    unfold convertPhase in Hc. destruct (Convert q) as [c|].
    + apply convertRun_starved in Hc. simpl. split; [lia|]. now left.
    + now destruct Hc.
  - subst o. destruct o2 as [[e|r]|]; simpl in Hs; try easy.
    unfold validatePhase in Hv. destruct (Validate q) as [v|].
    + apply validateRun_starved in Hv. simpl.
      rewrite refused_app, length_app. split; [lia|]. now right.
    + now destruct Hv.
Qed.

Lemma sequenceRun_starved fuel t (qs : list Question) (tr : trace) :
  sequenceRun fuel t qs tr OutOfFuel ->
  fuel <= List.length (refused tr)
  /\ exists q, In q qs /\ (Convert q <> None \/ Validate q <> None).
Proof.
  intros H. remember OutOfFuel as o eqn:Ho.
  induction H as [|q qs tr o Hq _|q qs tr1 tr2 o Hq _ IH].
  - discriminate.
  - subst o. apply questionRun_starved in Hq as [Hlen Hq].
    split; [exact Hlen|]. exists q. simpl. auto.
  - destruct (IH Ho) as (Hlen & q' & Hin & Hq').
    rewrite refused_app, length_app. split; [lia|].
    exists q'. simpl. auto.
Qed.

(** *** Where a bound value comes from *)

Lemma convertRun_accepted (p : Prompt) c fuel ans (tr : trace) o :
  convertRun p c fuel ans tr o ->
  forall a cv, o = Returned (inr (a, cv)) -> In (EvConvert c a cv None) tr.
Proof.
  induction 1; intros a cv' Ho; try discriminate.
  - injection Ho as <- <-. now left.
  - simpl. eauto.
Qed.

Lemma validateRun_accepted (p : Prompt) v cv fuel ans (tr : trace) o :
  validateRun p v cv fuel ans tr o ->
  forall a, o = Returned (inr a) -> In (EvValidate v cv None) tr.
Proof.
  induction 1; intros a Ho; try discriminate.
  - now left.
  - simpl. eauto.
Qed.

(** The value of a bind call of a question: the validator, if any, has
    accepted it; it is what the converter last returned, or, without a
    converter, the raw value of the question's first [prompt()]. *)
Lemma questionRun_write fuel (q : Question) t (tr : trace) o :
  questionRun fuel q t tr o ->
  forall t' name cv err,
    In (EvWrite t' name cv err) tr ->
    t' = t /\ name = Name q
    /\ (forall v, Validate q = Some v -> In (EvValidate v cv None) tr)
    /\ match Convert q with
       | Some c => exists a, In (EvConvert c a cv None) tr
       | None => In (EvPrompt (QPrompt q) cv None) tr
       end.
Proof.
  intros H t' name cv' err' Hin. pose proof H as Hshape.
  apply questionRun_shape in Hshape
    as [(_ & Hw & _)|(tr0 & a & cerr & cv0 & err0 & Htr & _ & _ & Hw & _)].
  { apply In_writtenNames in Hin. rewrite Hw in Hin. destruct Hin. }
  destruct H as [ans err
                | ans tr1 o1 o Hc Hs
                | ans tr1 ans1 cv tr2 o2 o Hc Hv Hs
                | ans tr1 ans1 cv tr2 ans2 cerr' err Hc Hv].
  - destruct Hin as [Hin|[]]. discriminate.
  - exfalso. apply convertPhase_calls in Hc as (_ & Hw1 & _).
    destruct Hin as [Hin|Hin]; [discriminate|].
    apply In_writtenNames in Hin. rewrite Hw1 in Hin. destruct Hin.
  - exfalso. apply convertPhase_calls in Hc as (_ & Hw1 & _).
    apply validatePhase_calls in Hv as (_ & Hw2 & _).
    destruct Hin as [Hin|Hin]; [discriminate|].
    apply In_writtenNames in Hin.
    rewrite writtenNames_app, Hw1, Hw2 in Hin. destruct Hin.
  - clear Htr Hw.
    assert (Hev : EvWrite t (Name q) cv err
                  = (EvWrite t' name cv' err' : event W value error container)).
    { pose proof Hc as Hc'. pose proof Hv as Hv'.
      apply convertPhase_calls in Hc' as (_ & Hw1 & _).
      apply validatePhase_calls in Hv' as (_ & Hw2 & _).
      destruct Hin as [Hin|Hin]; [discriminate|].
      apply in_app_or in Hin as [Hin|Hin].
      { apply In_writtenNames in Hin. rewrite Hw1 in Hin. destruct Hin. }
      apply in_app_or in Hin as [Hin|Hin].
      { apply In_writtenNames in Hin. rewrite Hw2 in Hin. destruct Hin. }
      destruct Hin as [Hin|[Hin|[]]]; [discriminate|exact Hin]. }
    injection Hev as <- <- <- <-. repeat split.
    + intros v HV. unfold validatePhase in Hv. rewrite HV in Hv.
      right. apply in_or_app. right. apply in_or_app. left.
      eapply validateRun_accepted; eauto.
    + unfold convertPhase in Hc. destruct (Convert q) as [c|].
      * exists ans1. right. apply in_or_app. left.
        eapply convertRun_accepted; eauto.
      * destruct Hc as [_ [= -> ->]]. now left.
Qed.

Lemma sequenceRun_write fuel t (qs : list Question) (tr : trace) o :
  sequenceRun fuel t qs tr o ->
  forall t' name cv err,
    In (EvWrite t' name cv err) tr ->
    t' = t
    /\ exists q,
        In q qs /\ name = Name q
        /\ (forall v, Validate q = Some v -> In (EvValidate v cv None) tr)
        /\ match Convert q with
           | Some c => exists a, In (EvConvert c a cv None) tr
           | None => In (EvPrompt (QPrompt q) cv None) tr
           end.
Proof.
  induction 1 as [|q qs tr o Hq _|q qs tr1 tr2 o Hq _ IH];
    intros t' name cv err Hin.
  - destruct Hin.
  - destruct (questionRun_write Hq _ _ _ _ Hin) as (-> & -> & Hv & Hc).
    split; [reflexivity|]. exists q. simpl. auto.
  - apply in_app_or in Hin as [Hin|Hin].
    + destruct (questionRun_write Hq _ _ _ _ Hin) as (-> & -> & Hv & Hc).
      split; [reflexivity|]. exists q. simpl. repeat split; auto.
      * intros v HV. apply in_or_app. left. auto.
      * destruct (Convert q); [destruct Hc as [a Ha]; exists a|];
          apply in_or_app; left; assumption.
    + destruct (IH _ _ _ _ Hin) as (-> & q' & Hq' & -> & Hv & Hc).
      split; [reflexivity|]. exists q'. simpl. repeat split; auto.
      * intros v HV. apply in_or_app. right. auto.
      * destruct (Convert q'); [destruct Hc as [a Ha]; exists a|];
          apply in_or_app; right; assumption.
Qed.

(** *** The binder is called in the order of the questions *)

Lemma sequenceRun_prefix fuel t (qs : list Question) (tr : trace) o :
  sequenceRun fuel t qs tr o ->
  exists rest, map Name qs = writtenNames tr ++ rest.
Proof.
  induction 1 as [|q qs tr o Hq _|q qs tr1 tr2 o Hq _ [rest IH]].
  - now exists [].
  - apply questionRun_bound in Hq as (_ & _ & [->| ->]).
    + now exists (Name q :: map Name qs).
    + now exists (map Name qs).
  - exists rest. rewrite writtenNames_app, (questionRun_written Hq).
    simpl. now rewrite IH.
Qed.

(** *** Conversion comes before validation *)

Lemma questionRun_phases fuel (q : Question) t (tr : trace) o :
  questionRun fuel q t tr o ->
  exists tr1 tr2,
    tr = tr1 ++ tr2
    /\ count isValidate tr1 = 0 /\ count isConvert tr2 = 0.
Proof.
  destruct 1 as [ans err
                | ans tr1 o1 o Hc Hs
                | ans tr1 ans1 cv tr2 o2 o Hc Hv Hs
                | ans tr1 ans1 cv tr2 ans2 cerr err Hc Hv];
    try apply convertPhase_calls in Hc as (_ & _ & _ & _ & Hn1);
    try apply validatePhase_calls in Hv as (_ & _ & _ & _ & Hn2).
  - exists [EvPrompt (QPrompt q) ans (Some err)], []. auto.
  - exists (EvPrompt (QPrompt q) ans None :: tr1), [].
    rewrite app_nil_r, count_cons. auto.
  - exists (EvPrompt (QPrompt q) ans None :: tr1), tr2.
    rewrite count_cons. auto.
  - exists (EvPrompt (QPrompt q) ans None :: tr1),
      (tr2 ++ [EvCleanup (QPrompt q) ans2 cerr; EvWrite t (Name q) cv err]).
    rewrite count_cons, count_app, Hn2. auto.
Qed.

(** *** Questions without converter and validator *)

Lemma questionRun_plain fuel (q : Question) t (tr : trace) o :
  questionRun fuel q t tr o ->
  Convert q = None -> Validate q = None ->
  exists ans err,
    o = Returned err
    /\ (tr = [EvPrompt (QPrompt q) ans err] /\ err <> None
        \/ exists cerr,
            tr = [EvPrompt (QPrompt q) ans None;
                  EvCleanup (QPrompt q) ans cerr;
                  EvWrite t (Name q) ans err]).
Proof.
  destruct 1 as [ans err
                | ans tr1 o1 o Hc Hs
                | ans tr1 ans1 cv tr2 o2 o Hc Hv Hs
                | ans tr1 ans1 cv tr2 ans2 cerr err Hc Hv];
    intros HC HV; unfold convertPhase, validatePhase in *;
    try rewrite HC in Hc; try rewrite HV in Hv.
  - exists ans, (Some err). split; [reflexivity|]. left. now split.
  - destruct Hc as [_ ->]. contradiction.
  - destruct Hv as [_ ->]. contradiction.
  - destruct Hc as [-> [= -> ->]]. destruct Hv as [-> [= ->]].
    exists ans, err. split; [reflexivity|]. right. now exists cerr.
Qed.

Lemma sequenceRun_plain fuel t (qs : list Question) (tr : trace) o :
  sequenceRun fuel t qs tr o ->
  (forall q, In q qs -> Convert q = None /\ Validate q = None) ->
  o <> OutOfFuel
  /\ count isPrompt tr <= List.length qs
  /\ count isError tr = 0 /\ count isConvert tr = 0
  /\ count isValidate tr = 0.
Proof.
  induction 1 as [|q qs tr o Hq _|q qs tr1 tr2 o Hq _ IH]; intros Hall.
  - repeat split; auto. discriminate.
  - destruct (Hall q (or_introl eq_refl)) as [HC HV].
    destruct (questionRun_plain Hq HC HV)
      as (ans & err & -> & [[-> _]|[cerr ->]]);
      repeat split; try discriminate; simpl; unfold count; simpl; lia.
  - destruct (Hall q (or_introl eq_refl)) as [HC HV].
    destruct (questionRun_plain Hq HC HV)
      as (ans & err & _ & [[-> _]|[cerr ->]]);
      (destruct IH as (Ho & Hp & He & Hcv & Hvl);
       [intros q' Hq'; apply Hall; now right|]);
      rewrite !count_app, He, Hcv, Hvl;
      repeat split; auto; unfold count at 1; simpl; lia.
Qed.

End MoreRuns.

Section MoreSequencer.

Variables W value error container : Type.
Variable errors_New : string -> error.
Variable WriteAnswer :
  container -> string -> value -> W -> option error * W.

#[local] Abbreviation Prompt := (Prompt W value error).
#[local] Abbreviation Question := (Question W value error).
#[local] Abbreviation trace := (trace W value error container).
#[local] Abbreviation askQuestion := (askQuestion WriteAnswer).
#[local] Abbreviation askLoop := (askLoop WriteAnswer).
#[local] Abbreviation Ask := (Ask errors_New WriteAnswer).

(** The run of [Ask] on a non-nil container, as a [sequenceRun]. *)
Lemma Ask_run fuel (qs : list Question) t w :
  sequenceRun fuel t qs (calls (Ask fuel qs (Some t) w))
              (result (Ask fuel qs (Some t) w)).
Proof.
  unfold Ask. destruct (askLoop fuel qs t w) as [[o w1] tr] eqn:E.
  apply askLoop_run in E. exact E.
Qed.

(** X1: asking [qs1 ++ qs2] is asking [qs1] and, if that returns nil,
    asking [qs2] in the world it left, the calls of the second following
    those of the first; if [qs1] returns an error or does not return,
    nothing of [qs2] is asked. *)
Theorem Ask_concat fuel (qs1 qs2 : list Question) t w :
  Ask fuel (qs1 ++ qs2) t w =
  match Ask fuel qs1 t w with
  | (Returned None, w1, tr1) =>
      match Ask fuel qs2 t w1 with
      | (o, w2, tr2) => (o, w2, tr1 ++ tr2)
      end
  | (Returned (Some err), w1, tr1) => (Returned (Some err), w1, tr1)
  | (OutOfFuel, w1, tr1) => (OutOfFuel, w1, tr1)
  end.
Proof.
  destruct t as [t|]; [|reflexivity]. unfold Ask. revert w.
  induction qs1 as [|q qs1 IH]; intros w.
  - simpl. now destruct (askLoop fuel qs2 t w) as [[o w2] tr2].
  - rewrite <- app_comm_cons, !askLoop_cons.
    destruct (askQuestion fuel q t w) as [[[[err|]|] w0] tr0];
      try reflexivity.
    rewrite IH.
    destruct (askLoop fuel qs1 t w0) as [[[[err|]|] w1] tr1];
      try reflexivity.
    destruct (askLoop fuel qs2 t w1) as [[o w2] tr2].
    now rewrite app_assoc.
Qed.

(** X2: an error returned by [Ask] on a non-nil container is the error
    returned by the last call it made, that call is a [prompt()], an
    [error()] or a bind, and no earlier such call failed. *)
Theorem Ask_error_is_last_call fuel (qs : list Question) t w e :
  result (Ask fuel qs (Some t) w) = Returned (Some e) ->
  abortedBy (calls (Ask fuel qs (Some t) w)) e.
Proof.
  intros Hr. pose proof (Ask_run fuel qs t w) as H.
  apply sequenceRun_endsAs in H. rewrite Hr in H. exact H.
Qed.

(** X3: when [Ask] returns nil, no [prompt()], [error()] or bind call has
    failed and the binder has been called exactly once per question, in
    the order of the list, each time successfully; this holds however
    many retries the questions needed. *)
Theorem Ask_nil_binds_every_question fuel (qs : list Question) t w :
  result (Ask fuel qs (Some t) w) = Returned None ->
  clean (calls (Ask fuel qs (Some t) w))
  /\ writtenNames (calls (Ask fuel qs (Some t) w)) = map Name qs
  /\ map fst (bound (calls (Ask fuel qs (Some t) w))) = map Name qs.
Proof.
  intros Hr. pose proof (Ask_run fuel qs t w) as H.
  repeat split.
  - apply sequenceRun_endsAs in H. rewrite Hr in H. exact H.
  - exact (sequenceRun_written H Hr).
  - exact (sequenceRun_bound H Hr).
Qed.

(** X4: in every run of [Ask], returned or not, the names handed to the
    binder are a prefix of the names of the questions: no question is
    bound twice, none is skipped and none is bound before an earlier
    one. *)
Theorem Ask_binds_in_order fuel (qs : list Question) t w :
  exists rest,
    map Name qs = writtenNames (calls (Ask fuel qs t w)) ++ rest.
Proof.
  destruct t as [t|].
  - exact (sequenceRun_prefix (Ask_run fuel qs t w)).
  - now exists (map Name qs).
Qed.

(** X5: in every run of [Ask], the errors handed to [error()] are exactly
    the errors with which [convert] and [validate] turned answers down,
    in the same order: every refusal is reported once, unchanged, and
    nothing else is. *)
Theorem Ask_reports_every_refusal fuel (qs : list Question) t w :
  reported (calls (Ask fuel qs t w)) = refused (calls (Ask fuel qs t w)).
Proof.
  destruct t as [t|]; [|reflexivity].
  exact (sequenceRun_reported (Ask_run fuel qs t w)).
Qed.

(** X6: when [Ask] returns nil, [prompt()] has been called once per
    question and once more for every error reported. *)
Theorem Ask_prompt_count fuel (qs : list Question) t w :
  result (Ask fuel qs (Some t) w) = Returned None ->
  count isPrompt (calls (Ask fuel qs (Some t) w))
  = List.length qs + count isError (calls (Ask fuel qs (Some t) w)).
Proof.
  intros Hr. exact (sequenceRun_prompts (Ask_run fuel qs t w) Hr).
Qed.

(** X7: whatever [Ask] hands to the binder goes to the container it was
    given, under the name of one of the questions, and for that question:
    its validator, if any, has accepted that very value; the value is one
    its converter returned without error, or, if it has no converter, a
    raw value its [prompt()] returned without error. *)
Theorem Ask_bound_value_origin fuel (qs : list Question) t w
        t' name cv err :
  In (EvWrite t' name cv err) (calls (Ask fuel qs (Some t) w)) ->
  t' = t
  /\ exists q,
      In q qs /\ name = Name q
      /\ (forall v, Validate q = Some v ->
                    In (EvValidate v cv None)
                       (calls (Ask fuel qs (Some t) w)))
      /\ match Convert q with
         | Some c =>
             exists a, In (EvConvert c a cv None)
                          (calls (Ask fuel qs (Some t) w))
         | None =>
             In (EvPrompt (QPrompt q) cv None)
                (calls (Ask fuel qs (Some t) w))
         end.
Proof.
  intros Hin. exact (sequenceRun_write (Ask_run fuel qs t w) _ _ _ _ Hin).
Qed.

(** X8: on questions that have neither converter nor validator, [Ask]
    returns whatever the fuel, even none: it makes at most one
    [prompt()] call per question and no [error()], conversion or
    validation call. *)
Theorem Ask_plain_questions_return fuel (qs : list Question) t w :
  (forall q, In q qs -> Convert q = None /\ Validate q = None) ->
  result (Ask fuel qs (Some t) w) <> OutOfFuel
  /\ count isPrompt (calls (Ask fuel qs (Some t) w)) <= List.length qs
  /\ count isError (calls (Ask fuel qs (Some t) w)) = 0
  /\ count isConvert (calls (Ask fuel qs (Some t) w)) = 0
  /\ count isValidate (calls (Ask fuel qs (Some t) w)) = 0.
Proof.
  intros Hall. exact (sequenceRun_plain (Ask_run fuel qs t w) Hall).
Qed.

(** X9: a run of [Ask] that is out of fuel has seen at least as many
    answers turned down by a converter or a validator as it had fuel, and
    some question has a converter or a validator: only an endless
    sequence of refused answers keeps [Ask] from returning. *)
Theorem Ask_out_of_fuel_refusals fuel (qs : list Question) t w :
  result (Ask fuel qs t w) = OutOfFuel ->
  fuel <= List.length (refused (calls (Ask fuel qs t w)))
  /\ exists q, In q qs /\ (Convert q <> None \/ Validate q <> None).
Proof.
  destruct t as [t|]; [|discriminate].
  intros Hr. pose proof (Ask_run fuel qs t w) as H.
  rewrite Hr in H. exact (sequenceRun_starved H).
Qed.

(** X10: the calls of one question split in two parts, the first without
    any validation and the second without any conversion: once a
    question's answer has been validated for the first time, nothing is
    converted for that question any more. *)
Theorem askQuestion_converts_before_validating fuel (q : Question) t w :
  exists tr1 tr2,
    calls (askQuestion fuel q t w) = tr1 ++ tr2
    /\ count isValidate tr1 = 0 /\ count isConvert tr2 = 0.
Proof.
  destruct (askQuestion fuel q t w) as [[o w1] tr] eqn:E.
  apply askQuestion_run in E. exact (questionRun_phases E).
Qed.

End MoreSequencer.

(** * More concrete runs on the scripted terminal *)

Module MoreWitnesses.

Import Scripted.

Lemma Ask_error_is_last_call_witness :
  result (ask 1 [question "a" terminal None None;
                 question "b" terminal None (Some halve);
                 question "c" terminal None None]
              (Some tt) (keyboard [6; 3])) = Returned (Some "EOF")
  /\ abortedBy
       (calls (ask 1 [question "a" terminal None None;
                      question "b" terminal None (Some halve);
                      question "c" terminal None None]
                   (Some tt) (keyboard [6; 3]))) "EOF".
Proof.
  split; [reflexivity|].
  apply (Ask_error_is_last_call (fun s => s) record 1
           [question "a" terminal None None;
            question "b" terminal None (Some halve);
            question "c" terminal None None] tt (keyboard [6; 3])).
  reflexivity.
Defined.

Lemma Ask_nil_binds_every_question_witness :
  result (ask 2 [question "age" terminal (Some grumpy) (Some halve);
                 question "floor" terminal None None]
              (Some tt) (keyboard [24; 9; 7])) = Returned None
  /\ writtenNames
       (calls (ask 2 [question "age" terminal (Some grumpy) (Some halve);
                      question "floor" terminal None None]
                   (Some tt) (keyboard [24; 9; 7]))) = ["age"; "floor"].
Proof.
  split; [reflexivity|].
  apply (Ask_nil_binds_every_question (fun s => s) record 2
           [question "age" terminal (Some grumpy) (Some halve);
            question "floor" terminal None None] tt (keyboard [24; 9; 7])).
  reflexivity.
Defined.

Lemma Ask_prompt_count_witness :
  result (ask 2 [question "age" terminal (Some grumpy) (Some halve);
                 question "floor" terminal None None]
              (Some tt) (keyboard [24; 9; 7])) = Returned None
  /\ count isPrompt
       (calls (ask 2 [question "age" terminal (Some grumpy) (Some halve);
                      question "floor" terminal None None]
                   (Some tt) (keyboard [24; 9; 7])))
     = 2 + count isError
         (calls (ask 2 [question "age" terminal (Some grumpy) (Some halve);
                        question "floor" terminal None None]
                     (Some tt) (keyboard [24; 9; 7]))).
Proof.
  split; [reflexivity|].
  apply (Ask_prompt_count (fun s => s) record 2
           [question "age" terminal (Some grumpy) (Some halve);
            question "floor" terminal None None] tt (keyboard [24; 9; 7])).
  reflexivity.
Defined.

Lemma Ask_bound_value_origin_witness :
  In (EvWrite tt "age" 12 None)
     (calls (ask 2 [question "age" terminal (Some grumpy) (Some halve);
                    question "floor" terminal None None]
                 (Some tt) (keyboard [24; 9; 7])))
  /\ exists q,
      In q [question "age" terminal (Some grumpy) (Some halve);
            question "floor" terminal None None]
      /\ "age" = Name q
      /\ (forall v, Validate q = Some v ->
                    In (EvValidate v 12 None)
                       (calls (ask 2 [question "age" terminal (Some grumpy)
                                               (Some halve);
                                      question "floor" terminal None None]
                                   (Some tt) (keyboard [24; 9; 7]))))
      /\ match Convert q with
         | Some c =>
             exists a,
               In (EvConvert c a 12 None)
                  (calls (ask 2 [question "age" terminal (Some grumpy)
                                          (Some halve);
                                 question "floor" terminal None None]
                              (Some tt) (keyboard [24; 9; 7])))
         | None =>
             In (EvPrompt (QPrompt q) 12 None)
                (calls (ask 2 [question "age" terminal (Some grumpy)
                                        (Some halve);
                               question "floor" terminal None None]
                            (Some tt) (keyboard [24; 9; 7])))
         end.
Proof.
  assert (Hin : In (EvWrite tt "age" 12 None)
                   (calls (ask 2 [question "age" terminal (Some grumpy)
                                           (Some halve);
                                  question "floor" terminal None None]
                               (Some tt) (keyboard [24; 9; 7]))))
    by (simpl; auto 10).
  split; [exact Hin|].
  exact (proj2 (Ask_bound_value_origin (fun s => s) record 2
                  [question "age" terminal (Some grumpy) (Some halve);
                   question "floor" terminal None None] tt
                  (keyboard [24; 9; 7]) tt "age" 12 None Hin)).
Defined.

Lemma Ask_plain_questions_return_witness :
  result (ask 0 [question "a" terminal None None;
                 question "b" terminal None None]
              (Some tt) (keyboard [1])) <> OutOfFuel
  /\ count isPrompt
       (calls (ask 0 [question "a" terminal None None;
                      question "b" terminal None None]
                   (Some tt) (keyboard [1]))) <= 2.
Proof.
  destruct (Ask_plain_questions_return (fun s => s) record 0
              [question "a" terminal None None;
               question "b" terminal None None] tt (keyboard [1]))
    as (Hr & Hp & _).
  - intros q [<-|[<-|[]]]; split; reflexivity.
  - split; assumption.
Defined.

Lemma Ask_out_of_fuel_refusals_witness :
  result (ask 5 [question "n" patient (Some atLeastTen) None]
              (Some tt) (keyboard [4])) = OutOfFuel
  /\ 5 <= List.length
            (refused
               (calls (ask 5 [question "n" patient (Some atLeastTen) None]
                           (Some tt) (keyboard [4])))).
Proof.
  split; [reflexivity|].
  apply (Ask_out_of_fuel_refusals (fun s => s) record 5
           [question "n" patient (Some atLeastTen) None] (Some tt)
           (keyboard [4])).
  reflexivity.
Defined.

End MoreWitnesses.

(** * Validation retries and questions without a converter *)

Section Retries.

Variables W value error container : Type.

#[local] Abbreviation Prompt := (Prompt W value error).
#[local] Abbreviation Question := (Question W value error).
#[local] Abbreviation event := (event W value error container).
#[local] Abbreviation trace := (trace W value error container).

Lemma count_zero_cons kind (ev : event) (tr : trace) :
  count kind (ev :: tr) = 0 -> kind ev = false /\ count kind tr = 0.
Proof.
  rewrite count_cons. destruct (kind ev); [discriminate|]. auto.
Qed.

(** A call of some kind, found in a trace whose first and last parts have
    no call of that kind, lies in the middle part. *)
Lemma split_middle kind (ev : event) (A B C : trace) :
  kind ev = true -> count kind A = 0 -> count kind C = 0 ->
  forall l1 l2,
    A ++ B ++ C = l1 ++ ev :: l2 ->
    exists m1 m2, B = m1 ++ ev :: m2 /\ l1 = A ++ m1 /\ l2 = m2 ++ C.
Proof.
  intros Hev HA HC. induction A as [|a A IHA].
  - clear HA. simpl. induction B as [|b B IHB]; intros l1 l2 H.
    + exfalso. simpl in H. revert l1 H HC.
      induction C as [|c C IHC]; intros [|x l1] H HC;
        simpl in H; try discriminate.
      * injection H as -> _. apply count_zero_cons in HC as [HC _].
        congruence.
      * injection H as _ H. apply count_zero_cons in HC as [_ HC]. eauto.
    + destruct l1 as [|x l1]; simpl in H; injection H as -> H.
      * exists [], B. auto.
      * destruct (IHB _ _ H) as (m1 & m2 & -> & -> & ->).
        exists (x :: m1), m2. auto.
  - intros l1 l2 H. apply count_zero_cons in HA as [Ha HA].
    destruct l1 as [|x l1]; simpl in H; injection H as -> H.
    + congruence.
    + destruct (IHA HA _ _ H) as (m1 & m2 & -> & -> & ->).
      exists m1, m2. auto.
Qed.

Lemma count_zero_split kind (ev : event) (tr l1 l2 : trace) :
  kind ev = true -> count kind tr = 0 -> tr <> l1 ++ ev :: l2.
Proof.
  intros Hev Hn ->. rewrite count_app, count_cons, Hev in Hn. lia.
Qed.

(** With fuel, the validation loop starts by validating. *)
Lemma validateRun_head (p : Prompt) v cv fuel ans (tr : trace) o :
  validateRun p v cv fuel ans tr o ->
  (tr = [] /\ o = OutOfFuel /\ fuel = 0)
  \/ exists invalid rest, tr = EvValidate v cv invalid :: rest.
Proof. destruct 1; eauto. Qed.

(** In the validation loop, what follows a failed validation. *)
Lemma validateRun_next (p : Prompt) v cv fuel ans (tr : trace) o :
  validateRun p v cv fuel ans tr o ->
  forall l1 l2 v' x invalid,
    tr = l1 ++ EvValidate v' x (Some invalid) :: l2 ->
    v' = v /\ x = cv /\ revalidated p v cv invalid l2 (o = OutOfFuel).
Proof.
  induction 1 as [|fuel ans|fuel ans i err|fuel ans i ans' err
                  |fuel ans i ans' tr o H IH];
    intros l1 l2 v' x invalid Heq.
  - destruct l1; discriminate.
  - destruct l1 as [|? [|? ?]]; discriminate.
  - destruct l1 as [|? [|? [|? ?]]]; try discriminate.
    injection Heq as <- <- <- <-. repeat split.
    exists (Some err), []. split; [reflexivity|discriminate].
  - destruct l1 as [|? [|? [|? [|? ?]]]]; try discriminate.
    injection Heq as <- <- <- <-. repeat split.
    exists None, [EvPrompt p ans' (Some err)]. split; [reflexivity|].
    intros _. exists ans', (Some err), []. split; [reflexivity|discriminate].
  - destruct l1 as [|? [|? [|? l1]]]; try discriminate.
    + injection Heq as <- <- <- <-. repeat split.
      exists None, (EvPrompt p ans' None :: tr). split; [reflexivity|].
      intros _. exists ans', None, tr. split; [reflexivity|]. intros _.
      destruct (validateRun_head H) as [(-> & -> & _)|(i' & rest & ->)];
        eauto.
    + injection Heq as _ _ _ Heq. eauto.
Qed.

Lemma revalidated_app (p : Prompt) v x invalid (rest tail : trace)
      (S1 S2 : Prop) :
  revalidated p v x invalid rest S1 ->
  (S1 -> S2 /\ tail = []) ->
  revalidated p v x invalid (rest ++ tail) S2.
Proof.
  intros (err & rest1 & -> & H) HS.
  exists err, (rest1 ++ tail). split; [reflexivity|].
  intros He. destruct (H He) as (ans & err' & rest2 & -> & H').
  exists ans, err', (rest2 ++ tail). split; [reflexivity|].
  intros He'. destruct (H' He') as [[-> HS1]|(i' & rest3 & ->)].
  - left. destruct (HS HS1) as [HS2 ->]. auto.
  - right. exists i', (rest3 ++ tail). reflexivity.
Qed.

(** For a question, what follows a failed validation: the report, a new
    [prompt()] and a validation of the same value, never a conversion. *)
Lemma questionRun_revalidates fuel (q : Question) t (tr : trace) o v :
  questionRun fuel q t tr o ->
  Validate q = Some v ->
  forall l1 l2 v' x invalid,
    tr = l1 ++ EvValidate v' x (Some invalid) :: l2 ->
    v' = v /\ revalidated (QPrompt q) v x invalid l2 (o = OutOfFuel).
Proof.
  destruct 1 as [ans err
                | ans tr1 o1 o Hc Hs
                | ans tr1 ans1 cv tr2 o2 o Hc Hv Hs
                | ans tr1 ans1 cv tr2 ans2 cerr err Hc Hv];
    intros HV l1 l2 v' x invalid Heq;
    try (unfold validatePhase in Hv; rewrite HV in Hv);
    try (apply convertPhase_calls in Hc as (_ & _ & _ & _ & Hn)).
  - destruct l1 as [|? [|? ?]]; discriminate.
  - exfalso. revert Heq.
    apply (count_zero_split isValidate);
      [reflexivity|rewrite count_cons; exact Hn].
  - assert (Hsplit : exists m1 m2,
               tr2 = m1 ++ EvValidate v' x (Some invalid) :: m2
               /\ l1 = (EvPrompt (QPrompt q) ans None :: tr1) ++ m1
               /\ l2 = m2 ++ []).
    { apply (split_middle isValidate);
        [reflexivity|rewrite count_cons; exact Hn|reflexivity|].
      rewrite app_nil_r. exact Heq. }
    destruct Hsplit as (m1 & m2 & Htr2 & _ & ->).
    pose proof Hv as Hnext.
    eapply validateRun_next in Hnext; [|exact Htr2].
    destruct Hnext as (-> & -> & Hre).
    split; [reflexivity|]. eapply revalidated_app; [exact Hre|].
    intros ->. simpl in Hs. auto.
  - assert (Hsplit : exists m1 m2,
               tr2 = m1 ++ EvValidate v' x (Some invalid) :: m2
               /\ l1 = (EvPrompt (QPrompt q) ans None :: tr1) ++ m1
               /\ l2 = m2 ++ [EvCleanup (QPrompt q) ans2 cerr;
                              EvWrite t (Name q) cv err]).
    { apply (split_middle isValidate);
        [reflexivity|rewrite count_cons; exact Hn|reflexivity|].
      exact Heq. }
    destruct Hsplit as (m1 & m2 & Htr2 & _ & ->).
    pose proof Hv as Hnext.
    eapply validateRun_next in Hnext; [|exact Htr2].
    destruct Hnext as (-> & -> & Hre).
    split; [reflexivity|]. eapply revalidated_app; [exact Hre|].
    discriminate.
Qed.

(** The conversion loop hands on what its last conversion returned. *)
Lemma convertRun_last (p : Prompt) c fuel ans (tr : trace) o :
  convertRun p c fuel ans tr o ->
  forall a cv,
    o = Returned (inr (a, cv)) ->
    exists pre, tr = pre ++ [EvConvert c a cv None].
Proof.
  induction 1 as [|fuel ans cv0|fuel ans cv0 i err|fuel ans cv0 i ans' err
                  |fuel ans cv0 i ans' tr o _ IH];
    intros a cv Ho; try discriminate.
  - injection Ho as <- <-. now exists [].
  - destruct (IH _ _ Ho) as [pre ->].
    now exists (EvConvert c ans cv0 (Some i) :: EvError p i None
                  :: EvPrompt p ans' None :: pre).
Qed.

Lemma count_isError_reported (tr : trace) :
  count isError tr = List.length (reported tr).
Proof.
  induction tr as [|ev tr IH]; [reflexivity|].
  rewrite count_cons. destruct ev; simpl; auto.
Qed.

(** The calls of a question up to its first validation, when conversion
    got through: one [prompt()], then one [error()] and one [prompt()]
    per refused conversion. *)
Lemma convertPhase_counts fuel (q : Question) ans (tr : trace) a cv :
  convertPhase fuel q ans tr (Returned (inr (a, cv))) ->
  count isPrompt tr = List.length (refused tr)
  /\ count isError tr = List.length (refused tr)
  /\ match Convert q with
     | Some c => exists pre, tr = pre ++ [EvConvert c a cv None]
     | None => tr = [] /\ cv = ans
     end.
Proof.
  unfold convertPhase. destruct (Convert q) as [c|].
  - intros H. pose proof (convertRun_prompts H eq_refl) as Hp.
    pose proof (convertRun_reported H) as Hr.
    rewrite Hp, count_isError_reported, Hr. repeat split.
    eapply convertRun_last; eauto.
  - intros [-> [= -> ->]]. auto.
Qed.

(** A question whose validator refuses once and then accepts. *)
Lemma questionRun_validated_once fuel (q : Question) t (tr : trace) o v e1 :
  questionRun fuel q t tr o ->
  Validate q = Some v ->
  outcomes isValidate tr = [Some e1; None] ->
  exists pre cv a2 cerr err,
    tr = pre ++ [EvValidate v cv (Some e1); EvError (QPrompt q) e1 None;
                 EvPrompt (QPrompt q) a2 None; EvValidate v cv None;
                 EvCleanup (QPrompt q) a2 cerr; EvWrite t (Name q) cv err]
    /\ count isValidate pre = 0
    /\ o = Returned err
    /\ match Convert q with
       | Some c => exists pre' a, pre = pre' ++ [EvConvert c a cv None]
       | None => pre = [EvPrompt (QPrompt q) cv None]
       end
    /\ count isPrompt tr = 2 + List.length (refused pre)
    /\ count isError tr = 1 + List.length (refused pre)
    /\ count isConvert tr = count isConvert pre.
Proof.
  destruct 1 as [ans err
                | ans tr1 o1 o Hc Hs
                | ans tr1 ans1 cv tr2 o2 o Hc Hv Hs
                | ans tr1 ans1 cv tr2 ans2 cerr err Hc Hv];
    intros HV Ho;
    try (unfold validatePhase in Hv; rewrite HV in Hv).
  - discriminate.
  - apply convertPhase_calls in Hc as (_ & _ & _ & _ & Hn).
    change (outcomes isValidate tr1 = [Some e1; None]) in Ho.
    rewrite (count_zero_outcomes _ _ Hn) in Ho. discriminate.
  - change (EvPrompt (QPrompt q) ans None :: tr1 ++ tr2)
      with ([EvPrompt (QPrompt q) ans None] ++ tr1 ++ tr2) in Ho.
    rewrite !outcomes_app in Ho.
    apply convertPhase_calls in Hc as (_ & _ & _ & _ & Hn).
    rewrite (count_zero_outcomes _ _ Hn) in Ho. simpl in Ho.
    destruct (validateRun_one_failure Hv Ho) as (_ & a2 & _ & ->).
    contradiction.
  - change (EvPrompt (QPrompt q) ans None
              :: tr1 ++ tr2
              ++ [EvCleanup (QPrompt q) ans2 cerr;
                  EvWrite t (Name q) cv err])
      with ([EvPrompt (QPrompt q) ans None] ++ tr1 ++ tr2
              ++ [EvCleanup (QPrompt q) ans2 cerr;
                  EvWrite t (Name q) cv err]) in Ho.
    rewrite !outcomes_app in Ho.
    pose proof Hc as Hn.
    apply convertPhase_calls in Hn as (_ & _ & _ & _ & Hn).
    rewrite (count_zero_outcomes _ _ Hn) in Ho. simpl in Ho.
    rewrite app_nil_r in Ho.
    destruct (validateRun_one_failure Hv Ho) as (_ & a2 & -> & [= ->]).
    pose proof Hc as Hcounts. apply convertPhase_counts in Hcounts.
    destruct Hcounts as (Hp & He & Hlast).
    exists (EvPrompt (QPrompt q) ans None :: tr1), cv, a2, cerr, err.
    split; [reflexivity|].
    split; [rewrite count_cons; exact Hn|].
    split; [reflexivity|].
    split.
    { destruct (Convert q) as [c|].
      - destruct Hlast as [pre ->].
        now exists (EvPrompt (QPrompt q) ans None :: pre), ans1.
      - now destruct Hlast as [-> ->]. }
    rewrite !count_cons, !count_app, Hp, He. simpl.
    unfold count. simpl. repeat split; lia.
Qed.

(** A failed retry loop has seen [prompt()] or [error()] fail. *)
Lemma validateRun_aborted (p : Prompt) v cv fuel ans (tr : trace) o :
  validateRun p v cv fuel ans tr o ->
  forall e, o = Returned (inl e) ->
            allOk isPrompt tr && allOk isError tr = false.
Proof.
  induction 1; intros e Ho; try discriminate; simpl; eauto.
Qed.

(** A question without a converter: the raw value of its first
    [prompt()] is what is validated, straight after that call, and what
    is handed to the binder whenever the prompt loops let the question
    through. *)
Lemma questionRun_raw fuel (q : Question) t (tr : trace) o :
  questionRun fuel q t tr o ->
  Convert q = None ->
  exists ans err tr',
    tr = EvPrompt (QPrompt q) ans err :: tr'
    /\ Forall (eq ans) (checkedValues tr)
    /\ count isConvert tr = 0
    /\ (err = None ->
        forall v, Validate q = Some v -> fuel <> 0 ->
                  exists invalid tr'', tr' = EvValidate v ans invalid :: tr'')
    /\ (forall r,
           o = Returned r ->
           allOk isPrompt tr = true -> allOk isError tr = true ->
           exists tr0 a' cerr,
             tr = tr0 ++ [EvCleanup (QPrompt q) a' cerr;
                          EvWrite t (Name q) ans r]
             /\ forall v, Validate q = Some v ->
                          In (EvValidate v ans None) tr0)
    /\ (o = Returned None -> bound tr = [(Name q, ans)]).
Proof.
  intros H HC. pose proof (questionRun_unconverted H HC) as Hun.
  destruct H as [ans err
                | ans tr1 o1 o Hc Hs
                | ans tr1 ans1 cv tr2 o2 o Hc Hv Hs
                | ans tr1 ans1 cv tr2 ans2 cerr err Hc Hv];
    try (unfold convertPhase in Hc; rewrite HC in Hc);
    destruct Hun as (a0 & err0 & tr0 & Heq & Hch & Hn).
  - injection Heq as <- <- <-.
    exists ans, (Some err), []. repeat split; auto; try discriminate.
  - destruct Hc as [-> ->]. contradiction.
  - destruct Hc as [-> [= -> ->]]. injection Heq as <- <- <-.
    exists ans, None, tr2. simpl app. repeat split; auto.
    + intros _ v HV Hfuel. unfold validatePhase in Hv. rewrite HV in Hv.
      destruct (validateRun_head Hv) as [(_ & _ & ->)|H]; [easy|exact H].
    + intros r -> Hp He. exfalso.
      unfold validatePhase in Hv. destruct (Validate q) as [v|].
      * destruct o2 as [[e|a]|]; simpl in Hs; try easy.
        pose proof (validateRun_aborted Hv eq_refl) as Hab.
        simpl in Hp, He. rewrite Hp, He in Hab. discriminate.
      * destruct Hv as [_ ->]. contradiction.
    + intros ->. exfalso. apply stops_outcome in Hs as [?|[? ?]];
        discriminate.
  - destruct Hc as [-> [= -> ->]]. injection Heq as <- <- <-.
    exists ans, None,
      (tr2 ++ [EvCleanup (QPrompt q) ans2 cerr; EvWrite t (Name q) ans err]).
    simpl app. repeat split; auto.
    + intros _ v HV Hfuel. unfold validatePhase in Hv. rewrite HV in Hv.
      destruct (validateRun_head Hv) as [(_ & _ & ->)|(i & rest & ->)];
        [easy|]. simpl. eauto.
    + intros r [= <-] _ _.
      exists (EvPrompt (QPrompt q) ans None :: tr2), ans2, cerr.
      split; [simpl; reflexivity|].
      intros v HV. unfold validatePhase in Hv. rewrite HV in Hv.
      right. eapply validateRun_accepted; eauto.
    + intros [= ->]. apply validatePhase_calls in Hv as (Hb2 & _).
      simpl. rewrite bound_app, Hb2. reflexivity.
Qed.

End Retries.

Section RetryTheorems.

Variables W value error container : Type.
Variable WriteAnswer :
  container -> string -> value -> W -> option error * W.

#[local] Abbreviation Question := (Question W value error).
#[local] Abbreviation askQuestion := (askQuestion WriteAnswer).

(** C3, as amended: for a question with a validator [v], in every run
    and at every failed validation, the failure is reported with
    [error()], a new raw value is asked for with [prompt()], and the next
    call validates the same value again: the new raw value is not
    converted.  In particular, when validation fails exactly once and
    then succeeds, the calls are those made up to the first validation
    ([pre]: the first [prompt()], then one [error()] and one [prompt()]
    for every conversion that failed), followed by the failed validation
    of [cv], one [error()], one more [prompt()], the successful
    validation of the same [cv], the cleanup with the new raw value and
    the bind of [cv], which is what the converter returned before the
    first validation (the raw value of the first [prompt()] if there is
    no converter).  [error()] is thus called once, and [prompt()] twice,
    when no conversion failed, and once more for each conversion that
    did. *)
Theorem askQuestion_revalidates_same_answer fuel (q : Question) t w v :
  Validate q = Some v ->
  (forall l1 l2 v' x invalid,
      calls (askQuestion fuel q t w)
      = l1 ++ EvValidate v' x (Some invalid) :: l2 ->
      v' = v
      /\ revalidated (QPrompt q) v x invalid l2
                     (result (askQuestion fuel q t w) = OutOfFuel))
  /\ (forall e1,
         outcomes isValidate (calls (askQuestion fuel q t w))
         = [Some e1; None] ->
         exists pre cv a2 cerr err,
           calls (askQuestion fuel q t w)
           = pre ++ [EvValidate v cv (Some e1);
                     EvError (QPrompt q) e1 None;
                     EvPrompt (QPrompt q) a2 None;
                     EvValidate v cv None;
                     EvCleanup (QPrompt q) a2 cerr;
                     EvWrite t (Name q) cv err]
           /\ count isValidate pre = 0
           /\ result (askQuestion fuel q t w) = Returned err
           /\ match Convert q with
              | Some c => exists pre' a, pre = pre' ++ [EvConvert c a cv None]
              | None => pre = [EvPrompt (QPrompt q) cv None]
              end
           /\ count isPrompt (calls (askQuestion fuel q t w))
              = 2 + List.length (refused pre)
           /\ count isError (calls (askQuestion fuel q t w))
              = 1 + List.length (refused pre)
           /\ count isConvert (calls (askQuestion fuel q t w))
              = count isConvert pre).
Proof.
  intros HV.
  destruct (askQuestion fuel q t w) as [[o w1] tr] eqn:E.
  apply askQuestion_run in E. unfold result, calls. simpl. split.
  - intros l1 l2 v' x invalid Heq.
    eapply questionRun_revalidates; eauto.
  - intros e1 Ho. exact (questionRun_validated_once E HV Ho).
Qed.

(** C7: for a question without a converter, let [ans] be the raw value
    returned by its first [prompt()].  No conversion is made; every value
    passed to [validate] and to the binder is [ans], however many times
    the validation loop prompts again; if the question has a validator
    (and the loop may run), [validate] is called on [ans] straight after
    that [prompt()]; and whenever the run returns without a [prompt()] or
    [error()] call having failed, its last call hands [ans] to the binder
    under the question's name, after the validator, if any, has accepted
    [ans]. *)
Theorem askQuestion_without_convert fuel (q : Question) t w :
  Convert q = None ->
  exists ans err tr',
    calls (askQuestion fuel q t w) = EvPrompt (QPrompt q) ans err :: tr'
    /\ Forall (eq ans) (checkedValues (calls (askQuestion fuel q t w)))
    /\ count isConvert (calls (askQuestion fuel q t w)) = 0
    /\ (err = None ->
        forall v, Validate q = Some v -> fuel <> 0 ->
                  exists invalid tr'', tr' = EvValidate v ans invalid :: tr'')
    /\ (forall r,
           result (askQuestion fuel q t w) = Returned r ->
           allOk isPrompt (calls (askQuestion fuel q t w)) = true ->
           allOk isError (calls (askQuestion fuel q t w)) = true ->
           exists tr0 a' cerr,
             calls (askQuestion fuel q t w)
             = tr0 ++ [EvCleanup (QPrompt q) a' cerr;
                       EvWrite t (Name q) ans r]
             /\ forall v, Validate q = Some v ->
                          In (EvValidate v ans None) tr0)
    /\ (result (askQuestion fuel q t w) = Returned None ->
        bound (calls (askQuestion fuel q t w)) = [(Name q, ans)]).
Proof.
  intros HC.
  destruct (askQuestion fuel q t w) as [[o w1] tr] eqn:E.
  apply askQuestion_run in E. unfold result, calls. simpl.
  exact (questionRun_raw E HC).
Qed.

End RetryTheorems.

(** * Runs that settle the retry counts *)

Module RetryRuns.

Import Scripted.

(** Validation fails once and then succeeds, after a conversion that
    failed once: [error()] is called twice, not once. *)
Lemma askQuestion_validation_retry_counterexample :
  Validate (question "age" terminal (Some grumpy) (Some halve))
  = Some grumpy
  /\ outcomes isValidate
       (calls (askQuestion record 2
                 (question "age" terminal (Some grumpy) (Some halve))
                 tt (keyboard [3; 24; 9])))
     = [Some "try again"; None]
  /\ result (askQuestion record 2
               (question "age" terminal (Some grumpy) (Some halve))
               tt (keyboard [3; 24; 9])) = Returned None
  /\ count isPrompt
       (calls (askQuestion record 2
                 (question "age" terminal (Some grumpy) (Some halve))
                 tt (keyboard [3; 24; 9]))) = 3
  /\ count isError
       (calls (askQuestion record 2
                 (question "age" terminal (Some grumpy) (Some halve))
                 tt (keyboard [3; 24; 9]))) = 2
  /\ count isError
       (calls (askQuestion record 2
                 (question "age" terminal (Some grumpy) (Some halve))
                 tt (keyboard [3; 24; 9]))) <> 1.
Proof. repeat split. discriminate. Qed.

(** Conversion fails twice and then succeeds, [prompt()] and [error()]
    never fail, and the validator refuses the converted value once:
    [prompt()] is called four times and [error()] three times before the
    answer is bound. *)
Lemma askQuestion_conversion_retries_counterexample :
  Convert (question "age" terminal (Some grumpy) (Some halve))
  = Some halve
  /\ outcomes isConvert
       (calls (askQuestion record 3
                 (question "age" terminal (Some grumpy) (Some halve))
                 tt (keyboard [1; 3; 4; 9])))
     = [Some "odd"; Some "odd"; None]
  /\ allOk isPrompt
       (calls (askQuestion record 3
                 (question "age" terminal (Some grumpy) (Some halve))
                 tt (keyboard [1; 3; 4; 9]))) = true
  /\ allOk isError
       (calls (askQuestion record 3
                 (question "age" terminal (Some grumpy) (Some halve))
                 tt (keyboard [1; 3; 4; 9]))) = true
  /\ bound
       (calls (askQuestion record 3
                 (question "age" terminal (Some grumpy) (Some halve))
                 tt (keyboard [1; 3; 4; 9]))) = [("age", 2)]
  /\ count isPrompt
       (calls (askQuestion record 3
                 (question "age" terminal (Some grumpy) (Some halve))
                 tt (keyboard [1; 3; 4; 9]))) = 4
  /\ count isError
       (calls (askQuestion record 3
                 (question "age" terminal (Some grumpy) (Some halve))
                 tt (keyboard [1; 3; 4; 9]))) = 3
  /\ ~ (count isPrompt
          (calls (askQuestion record 3
                    (question "age" terminal (Some grumpy) (Some halve))
                    tt (keyboard [1; 3; 4; 9]))) = 3
        /\ count isError
             (calls (askQuestion record 3
                       (question "age" terminal (Some grumpy) (Some halve))
                       tt (keyboard [1; 3; 4; 9]))) = 2).
Proof. repeat split. intros [H _]. discriminate H. Qed.

Lemma askQuestion_revalidates_same_answer_witness :
  outcomes isValidate
    (calls (askQuestion record 2
              (question "age" terminal (Some grumpy) (Some halve))
              tt (keyboard [3; 24; 9]))) = [Some "try again"; None]
  /\ exists pre cv a2 cerr err,
      calls (askQuestion record 2
               (question "age" terminal (Some grumpy) (Some halve))
               tt (keyboard [3; 24; 9]))
      = pre ++ [EvValidate grumpy cv (Some "try again");
                EvError terminal "try again" None;
                EvPrompt terminal a2 None;
                EvValidate grumpy cv None;
                EvCleanup terminal a2 cerr;
                EvWrite tt "age" cv err]
      /\ count isError
           (calls (askQuestion record 2
                     (question "age" terminal (Some grumpy) (Some halve))
                     tt (keyboard [3; 24; 9])))
         = 1 + List.length (refused pre).
Proof.
  split; [reflexivity|].
  destruct (proj2 (askQuestion_revalidates_same_answer record 2
                     (question "age" terminal (Some grumpy) (Some halve))
                     tt (keyboard [3; 24; 9]) eq_refl)
                  "try again" eq_refl)
    as (pre & cv & a2 & cerr & err & Htr & _ & _ & _ & _ & He & _).
  exists pre, cv, a2, cerr, err. split; assumption.
Defined.

Lemma askQuestion_without_convert_witness :
  result (askQuestion record 2 (question "n" terminal (Some grumpy) None)
                      tt (keyboard [4; 7])) = Returned None
  /\ exists ans,
      bound (calls (askQuestion record 2
                      (question "n" terminal (Some grumpy) None)
                      tt (keyboard [4; 7]))) = [("n", ans)]
      /\ Forall (eq ans)
           (checkedValues
              (calls (askQuestion record 2
                        (question "n" terminal (Some grumpy) None)
                        tt (keyboard [4; 7])))).
Proof.
  split; [reflexivity|].
  destruct (askQuestion_without_convert record 2
              (question "n" terminal (Some grumpy) None) tt
              (keyboard [4; 7]) eq_refl)
    as (ans & err & tr' & _ & Hch & _ & _ & _ & Hb).
  exists ans. split; [exact (Hb eq_refl)|exact Hch].
Defined.

End RetryRuns.
